(** * Differential synchronization server ([src/server.js])

    A shallow embedding of the server-side core of the diffsync service:
    the room cache with its lazy load ([getData]), the join handler, the
    edit pipeline ([receiveEdit], [sendServerChanges]), the save
    coalescer ([saveSnapshot]) and [reset].

    Modelling decisions, all taken from the way the source is written:

    - JavaScript objects used as dictionaries ([this.data],
      [this.requests], [this.saveRequests], [this.saveQueue],
      [clientVersions]) are finite maps keyed by strings.  Keys are assumed
      not to collide with members of [Object.prototype].
    - Documents are mutable JavaScript values reached through references;
      [jsondiffpatch.patch] updates its first argument in place.  The
      embedding keeps an explicit heap of cells and the records hold
      locations, so that aliasing between the shadow, the backup and the
      server copy is visible.
    - The adapter is asynchronous.  A call to the adapter emits an effect
      and records the callback among the outstanding calls; the completion
      is a later event that consumes the record and runs the callback.
    - Every handler runs to completion: the state is threaded explicitly
      and the observable actions are collected in order.
    - [reset] polls on a timer.  It is no event of the runs: it has a
      function of its own, which takes the events of each interval between
      two polls, and the states called reachable are those of a server
      that was not reset.
    - Version numbers are integers; the library calls return normally. *)

From stdpp Require Import gmap strings list fin_maps sorting.
From Stdlib Require Import ZArith Lia.

Set Warnings "-register-all".

Local Open Scope string_scope.
Local Open Scope list_scope.

(** ** JavaScript values *)

(** The values that flow through the server: JSON documents and deltas,
    plus [undefined], which [jsondiffpatch.diff] returns for equal
    documents and which an adapter passes when it has no document. *)
Inductive JsVal : Type :=
| VUndefined
| VNull
| VBool (b : bool)
| VNum (z : Z)
| VStr (s : string)
| VArr (l : list JsVal)
| VObj (l : list (string * JsVal)).

#[global] Instance JsVal_inhabited : Inhabited JsVal := populate VUndefined.

(** [lodash.isempty]: [null], [undefined], numbers and booleans are empty;
    strings and arrays are empty when their length is zero; objects when
    they have no own enumerable key. *)
Definition lodash_isEmpty (v : JsVal) : bool :=
  match v with
  | VUndefined | VNull | VBool _ | VNum _ => true
  | VStr s => bool_decide (s = "")
  | VArr l => bool_decide (length l = 0%nat)
  | VObj l => bool_decide (length l = 0%nat)
  end.

(** ** The heap of documents *)

Abbreviation loc := nat.

(** A cell holds one whole document or delta. Locations are never freed. *)
Abbreviation Heap := (list JsVal).

Definition read (h : Heap) (l : loc) : JsVal := default VUndefined (h !! l).

(** A new object: the next unused location. *)
Definition alloc (v : JsVal) (h : Heap) : loc * Heap := (length h, h ++ [v]).

Definition allocated (h : Heap) (l : loc) : Prop := (l < length h)%nat.

(** Modelled from the spec: [utils.deepCopy] of [./utils], which is not
    among the sources.  Section 4.1 describes it as a value-independent
    copy: a new object holding an equal value. *)
Definition deepCopy (v : JsVal) (h : Heap) : loc * Heap := alloc v h.

(** ** Wire data *)

Record Connection := { id : string; userid : string }.

Record Edit := {
  e_serverVersion : Z;
  e_localVersion : Z;
  e_diff : JsVal
}.

Record EditMessage := {
  m_room : string;
  m_serverVersion : option Z;
  m_edits : list Edit
}.

Record Reply := {
  r_localVersion : Z;
  r_serverVersion : Z;
  r_edits : list Edit
}.

(** ** Room state *)

Record Backup := { bk_doc : loc; bk_serverVersion : Z }.

Record Shadow := { sh_doc : loc; sh_serverVersion : Z; sh_localVersion : Z }.

Record ClientDoc := { backup : Backup; shadow : Shadow; edits : list Edit }.

Record RoomState := {
  registeredSockets : list string;
  clientVersions : gmap string ClientDoc;
  serverCopy : loc
}.

(** ** Callbacks, effects and outstanding adapter calls *)

(** Functions supplied by the client with a request ([initializeClient],
    [sendToClient]); the server only ever calls them. *)
Definition Fn := nat.

(** The three closures that the source passes to [getData]. *)
Inductive Callback : Type :=
| CbJoin (connection : Connection) (room : string) (initializeClient : Fn)
| CbReceiveEdit (connection : Connection) (editMessage : EditMessage)
    (sendToClient : Fn)
| CbSaveSnapshot (room : string) (edits : list Edit) (userid : string).

(** The event names of [./commands], which is not among the sources. *)
Record Commands := {
  cmd_join : string;
  cmd_syncWithServer : string;
  cmd_remoteUpdateIncoming : string;
  cmd_error : string
}.

(** What the server does to the outside world, in order. *)
Inductive Effect : Type :=
| AdapterGetData (room userid : string)
| AdapterCheckDiffs (editMessage : EditMessage) (doc : RoomState)
| AdapterStoreData (room userid : string) (document : JsVal)
    (edits : list Edit)
| ConnectionJoin (connection room : string)
| ConnectionEmit (connection event payload : string)
| TransportToEmit (room event payload : string)
| InitializeClient (f : Fn) (document : JsVal)
| SendToClient (f : Fn) (reply : Reply)
| ConsoleLog (editServerVersion shadowServerVersion
              editLocalVersion shadowLocalVersion : Z).

(** [adapter.getData(room, userid, cb)] not yet answered; [cb] closes over
    [room] and the caller's [callback]. *)
Record GetDataCall := {
  gd_room : string;
  gd_userid : string;
  gd_callback : Callback
}.

(** [adapter.checkDiffs(editMessage, doc, cb)] not yet answered; [cb]
    closes over the connection, the message, the RoomState object [doc]
    (named by its key in the cache) and [sendToClient]. *)
Record CheckDiffsCall := {
  cd_connection : Connection;
  cd_editMessage : EditMessage;
  cd_doc : string;
  cd_sendToClient : Fn
}.

(** [adapter.storeData(room, userid, _, edits, checkQueueAndSaveAgain)] not
    yet answered; the callback closes over the [room], [edits] and [userid]
    of the [saveSnapshot] invocation that issued the call. *)
Record StoreDataCall := {
  sd_room : string;
  sd_userid : string;
  sd_edits : list Edit
}.

(** ** The server *)

Record Server := {
  heap : Heap;
  data : gmap string RoomState;
  requests : gmap string bool;
  saveRequests : gmap string bool;
  saveQueue : gmap string bool;
  getDataCalls : list GetDataCall;
  checkDiffsCalls : list CheckDiffsCall;
  storeDataCalls : list StoreDataCall
}.

(** [new Server(adapter, transport)] *)
Definition newServer : Server :=
  {| heap := []; data := ∅; requests := ∅; saveRequests := ∅;
     saveQueue := ∅; getDataCalls := []; checkDiffsCalls := [];
     storeDataCalls := [] |}.

Definition set_heap (h : Heap) (s : Server) : Server :=
  {| heap := h; data := data s; requests := requests s;
     saveRequests := saveRequests s; saveQueue := saveQueue s;
     getDataCalls := getDataCalls s; checkDiffsCalls := checkDiffsCalls s;
     storeDataCalls := storeDataCalls s |}.

Definition set_data (d : gmap string RoomState) (s : Server) : Server :=
  {| heap := heap s; data := d; requests := requests s;
     saveRequests := saveRequests s; saveQueue := saveQueue s;
     getDataCalls := getDataCalls s; checkDiffsCalls := checkDiffsCalls s;
     storeDataCalls := storeDataCalls s |}.

Definition set_requests (r : gmap string bool) (s : Server) : Server :=
  {| heap := heap s; data := data s; requests := r;
     saveRequests := saveRequests s; saveQueue := saveQueue s;
     getDataCalls := getDataCalls s; checkDiffsCalls := checkDiffsCalls s;
     storeDataCalls := storeDataCalls s |}.

Definition set_saveRequests (r : gmap string bool) (s : Server) : Server :=
  {| heap := heap s; data := data s; requests := requests s;
     saveRequests := r; saveQueue := saveQueue s;
     getDataCalls := getDataCalls s; checkDiffsCalls := checkDiffsCalls s;
     storeDataCalls := storeDataCalls s |}.

Definition set_saveQueue (q : gmap string bool) (s : Server) : Server :=
  {| heap := heap s; data := data s; requests := requests s;
     saveRequests := saveRequests s; saveQueue := q;
     getDataCalls := getDataCalls s; checkDiffsCalls := checkDiffsCalls s;
     storeDataCalls := storeDataCalls s |}.

Definition set_getDataCalls (l : list GetDataCall) (s : Server) : Server :=
  {| heap := heap s; data := data s; requests := requests s;
     saveRequests := saveRequests s; saveQueue := saveQueue s;
     getDataCalls := l; checkDiffsCalls := checkDiffsCalls s;
     storeDataCalls := storeDataCalls s |}.

Definition set_checkDiffsCalls (l : list CheckDiffsCall) (s : Server)
  : Server :=
  {| heap := heap s; data := data s; requests := requests s;
     saveRequests := saveRequests s; saveQueue := saveQueue s;
     getDataCalls := getDataCalls s; checkDiffsCalls := l;
     storeDataCalls := storeDataCalls s |}.

Definition set_storeDataCalls (l : list StoreDataCall) (s : Server)
  : Server :=
  {| heap := heap s; data := data s; requests := requests s;
     saveRequests := saveRequests s; saveQueue := saveQueue s;
     getDataCalls := getDataCalls s; checkDiffsCalls := checkDiffsCalls s;
     storeDataCalls := l |}.

(** [clientDoc] is an object inside [doc.clientVersions]; writing a field
    of [clientDoc] is writing through the room. *)
Definition set_clientDoc (cid : string) (c : ClientDoc) (d : RoomState)
  : RoomState :=
  {| registeredSockets := registeredSockets d;
     clientVersions := <[cid := c]> (clientVersions d);
     serverCopy := serverCopy d |}.

Definition store_clientDoc (doc cid : string) (c : ClientDoc) (s : Server)
  : Server :=
  set_data (alter (set_clientDoc cid c) doc (data s)) s.

(** The flag dictionaries hold [true], [false] or nothing ([undefined]);
    [!flags[room]] and [flags[room] === true] agree on these. *)
Definition is_true (o : option bool) : bool :=
  match o with Some true => true | _ => false end.

(** A handler: the state after it ran, and what it did. *)
Definition Step := Server → Server * list Effect.

(** ** A concrete instance, for evaluation *)

(** Structural equality of values. *)
Fixpoint JsVal_eqb (a b : JsVal) : bool :=
  match a, b with
  | VUndefined, VUndefined => true
  | VNull, VNull => true
  | VBool x, VBool y => bool_decide (x = y)
  | VNum x, VNum y => (x =? y)%Z
  | VStr x, VStr y => bool_decide (x = y)
  | VArr xs, VArr ys =>
      (fix all2 (xs ys : list JsVal) : bool :=
         match xs, ys with
         | [], [] => true
         | x :: xs', y :: ys' => JsVal_eqb x y && all2 xs' ys'
         | _, _ => false
         end) xs ys
  | VObj xs, VObj ys =>
      (fix all2 (xs ys : list (string * JsVal)) : bool :=
         match xs, ys with
         | [], [] => true
         | (k, x) :: xs', (k', y) :: ys' =>
             bool_decide (k = k') && JsVal_eqb x y && all2 xs' ys'
         | _, _ => false
         end) xs ys
  | _, _ => false
  end.

(** A small diff engine in the format of jsondiffpatch's whole-value
    replacement: the delta of two different documents is [[old, new]]. *)
Definition replace_diff (left right : JsVal) : JsVal :=
  if JsVal_eqb left right then VUndefined else VArr [left; right].

(** Patching installs the new value; the delta object is left scrambled,
    as a library that consumes its argument may leave it. *)
Definition replace_patch (target delta : JsVal) : JsVal * JsVal :=
  match delta with
  | VArr [_; new] => (new, VNull)
  | _ => (target, delta)
  end.

(** Event names to evaluate with; the table of the service is in
    [./commands]. *)
Definition commands : Commands :=
  {| cmd_join := "diffsync-join";
     cmd_syncWithServer := "send-edit";
     cmd_remoteUpdateIncoming := "updated-doc";
     cmd_error := "error" |}.

(** ** Sample data *)

Definition hello : JsVal := VObj [("text", VStr "hello")].
Definition hello_world : JsVal := VObj [("text", VStr "hello world")].

Definition alice : Connection := {| id := "A"; userid := "alice" |}.
Definition bob : Connection := {| id := "B"; userid := "bob" |}.

Definition edit1 : Edit :=
  {| e_serverVersion := 0; e_localVersion := 0;
     e_diff := replace_diff hello hello_world |}.

Definition message1 : EditMessage :=
  {| m_room := "r"; m_serverVersion := Some 0%Z; m_edits := [edit1] |}.

(** The same edit twice: the second copy is stale when it is reached. *)
Definition message2 : EditMessage :=
  {| m_room := "r"; m_serverVersion := Some 0%Z;
     m_edits := [edit1; edit1] |}.

Definition client0 : ClientDoc :=
  {| backup := {| bk_doc := 1; bk_serverVersion := 0 |};
     shadow := {| sh_doc := 2; sh_serverVersion := 0;
                  sh_localVersion := 0 |};
     edits := [] |}.

Definition room0 : RoomState :=
  {| registeredSockets := []; clientVersions := {["A" := client0]};
     serverCopy := 0 |}.

Definition store0 : StoreDataCall :=
  {| sd_room := "r"; sd_userid := "alice"; sd_edits := [edit1] |}.

(** Scenario S1: alice has joined room "r", loaded with [hello]. *)
Definition joined : Server :=
  {| heap := [hello; hello; hello];
     data := {["r" := room0]};
     requests := {["r" := false]};
     saveRequests := ∅; saveQueue := ∅;
     getDataCalls := []; checkDiffsCalls := []; storeDataCalls := [] |}.

(** Alice's message has reached the adapter, which has not answered. *)
Definition checking : Server :=
  {| heap := [hello; hello; hello];
     data := {["r" := room0]};
     requests := {["r" := false]};
     saveRequests := ∅; saveQueue := ∅;
     getDataCalls := [];
     checkDiffsCalls :=
       [{| cd_connection := alice; cd_editMessage := message1;
           cd_doc := "r"; cd_sendToClient := 2%nat |}];
     storeDataCalls := [] |}.

Definition client1 : ClientDoc :=
  {| backup := {| bk_doc := 3; bk_serverVersion := 0 |};
     shadow := {| sh_doc := 2; sh_serverVersion := 0;
                  sh_localVersion := 1 |};
     edits := [] |}.

Definition room1 : RoomState :=
  {| registeredSockets := []; clientVersions := {["A" := client1]};
     serverCopy := 0 |}.

(** Scenario S2: the adapter allowed the message; the save it started is
    outstanding. *)
Definition saving : Server :=
  {| heap := [hello_world; hello; hello_world; hello; VNull; VNull];
     data := {["r" := room1]};
     requests := {["r" := false]};
     saveRequests := {["r" := true]}; saveQueue := ∅;
     getDataCalls := []; checkDiffsCalls := [];
     storeDataCalls := [store0] |}.

(** Room "r" is being loaded for alice's join. *)
Definition loading : Server :=
  {| heap := []; data := ∅;
     requests := {["r" := true]};
     saveRequests := ∅; saveQueue := ∅;
     getDataCalls :=
       [{| gd_room := "r"; gd_userid := "alice";
           gd_callback := CbJoin alice "r" 1%nat |}];
     checkDiffsCalls := []; storeDataCalls := [] |}.

Definition client_bob : ClientDoc :=
  {| backup := {| bk_doc := 3; bk_serverVersion := 0 |};
     shadow := {| sh_doc := 4; sh_serverVersion := 0;
                  sh_localVersion := 0 |};
     edits := [] |}.

Definition room2 : RoomState :=
  {| registeredSockets := [];
     clientVersions := <["B" := client_bob]> {["A" := client0]};
     serverCopy := 0 |}.

(** Scenario S1 with bob in the room as well. *)
Definition two_clients : Server :=
  {| heap := [hello; hello; hello; hello; hello];
     data := {["r" := room2]};
     requests := {["r" := false]};
     saveRequests := ∅; saveQueue := ∅;
     getDataCalls := []; checkDiffsCalls := []; storeDataCalls := [] |}.

(** The server copy has moved on while alice's shadow has not. *)
Definition behind : Heap := [hello_world; hello; hello].

Section Server.

(** ** The injected libraries *)

(** [jsondiffpatch.diff(left, right)]: the delta, [undefined] when the two
    documents are equal.  It reads its arguments only. *)
Variable jdp_diff : JsVal → JsVal → JsVal.

(** [jsondiffpatch.patch(target, delta)] works in place and its result is
    discarded by the server: [jdp_patch v δ] is what the two argument
    objects hold after the call, the target first. *)
Variable jdp_patch : JsVal → JsVal → JsVal * JsVal.

(** [lodash.isempty] *)
Variable isEmpty : JsVal → bool.

Variable COMMANDS : Commands.

(** [this.jsondiffpatch.patch(target, delta)] on the heap *)
Definition patch (target delta : loc) (h : Heap) : Heap :=
  let '(v, δ) := jdp_patch (read h target) (read h delta) in
  <[delta := δ]> (<[target := v]> h).

(** ** [joinConnection] (lines 56-80) *)

(** The callback handed to [getData]; [data] is the RoomState object,
    named by its key in the cache. *)
Definition joinConnection_cb (connection : Connection) (room : string)
    (initializeClient : Fn) (data_ : string) : Step := fun s =>
  match data s !! data_ with
  | Some d =>
      let '(b, h1) := deepCopy (read (heap s) (serverCopy d)) (heap s) in
      let '(sh, h2) := deepCopy (read h1 (serverCopy d)) h1 in
      let clientDoc :=
        {| backup := {| bk_doc := b; bk_serverVersion := 0 |};
           shadow := {| sh_doc := sh; sh_serverVersion := 0;
                        sh_localVersion := 0 |};
           edits := [] |} in
      (store_clientDoc data_ (id connection) clientDoc (set_heap h2 s),
       [ConnectionJoin (id connection) room;
        InitializeClient initializeClient (read h2 (serverCopy d))])
  | None => (s, [])
  end.

(** ** [receiveEdit] up to the adapter's verdict (lines 150-152) *)

(** [doc] is an object, so [if (doc)] always holds. *)
Definition receiveEdit_cb (connection : Connection)
    (editMessage : EditMessage) (sendToClient : Fn) (doc : string)
  : Step := fun s =>
  match data s !! doc with
  | Some d =>
      (set_checkDiffsCalls
         (checkDiffsCalls s ++
          [{| cd_connection := connection; cd_editMessage := editMessage;
              cd_doc := doc; cd_sendToClient := sendToClient |}]) s,
       [AdapterCheckDiffs editMessage d])
  | None => (s, [])
  end.

(** ** [saveSnapshot]: the callback handed to [getData] (lines 234-241) *)

(** [getData] always calls back with a [null] error and an object, so the
    test [!err && data] holds and the [else] branch is never taken. *)
Definition saveSnapshot_cb (room : string) (edits_ : list Edit)
    (userid_ : string) (data_ : string) : Step := fun s =>
  match data s !! data_ with
  | Some d =>
      (set_storeDataCalls
         (storeDataCalls s ++
          [{| sd_room := room; sd_userid := userid_; sd_edits := edits_ |}])
         s,
       [AdapterStoreData room userid_ (read (heap s) (serverCopy d)) edits_])
  | None => (s, [])
  end.

(** [callback(null, cache[room])] *)
Definition call (callback : Callback) (data_ : string) : Step :=
  match callback with
  | CbJoin connection room initializeClient =>
      joinConnection_cb connection room initializeClient data_
  | CbReceiveEdit connection editMessage sendToClient =>
      receiveEdit_cb connection editMessage sendToClient data_
  | CbSaveSnapshot room edits_ userid_ =>
      saveSnapshot_cb room edits_ userid_ data_
  end.

(** ** [getData] (lines 113-141) *)

Definition getData (room userid_ : string) (callback : Callback)
  : Step := fun s =>
  match data s !! room with
  | Some cachedVersion => call callback room s
  | None =>
      if negb (is_true (requests s !! room)) then
        (set_getDataCalls
           (getDataCalls s ++
            [{| gd_room := room; gd_userid := userid_;
                gd_callback := callback |}])
           (set_requests (<[room := true]> (requests s)) s),
         [AdapterGetData room userid_])
      else
        (set_requests (<[room := true]> (requests s)) s, [])
  end.

(** The function handed to [adapter.getData] (lines 127-136).  [error] is
    never read.  The adapter's document is a new object for the server. *)
Definition getData_adapter_cb (room : string) (callback : Callback)
    (error : bool) (data_ : JsVal) : Step := fun s =>
  let '(l, h) := alloc data_ (heap s) in
  let roomState :=
    {| registeredSockets := []; clientVersions := ∅; serverCopy := l |} in
  call callback room
    (set_requests (<[room := false]> (requests s))
       (set_data (<[room := roomState]> (data s)) (set_heap h s))).

Definition joinConnection (connection : Connection) (room : string)
    (initializeClient : Fn) : Step :=
  getData room (userid connection) (CbJoin connection room initializeClient).

Definition receiveEdit (connection : Connection)
    (editMessage : EditMessage) (sendToClient : Fn) : Step :=
  getData (m_room editMessage) (userid connection)
    (CbReceiveEdit connection editMessage sendToClient).

(** ** [saveSnapshot] (lines 218-246) *)

Definition saveSnapshot (room : string) (edits_ : list Edit)
    (userid_ : string) : Step := fun s =>
  let noRequestInProgress := negb (is_true (saveRequests s !! room)) in
  if noRequestInProgress then
    getData room userid_ (CbSaveSnapshot room edits_ userid_)
      (set_saveRequests (<[room := true]> (saveRequests s)) s)
  else
    (set_saveQueue (<[room := true]> (saveQueue s)) s, []).

Definition checkQueueAndSaveAgain (room : string) (edits_ : list Edit)
    (userid_ : string) : Step := fun s =>
  let anotherRequestScheduled := is_true (saveQueue s !! room) in
  let s1 := set_saveRequests (<[room := false]> (saveRequests s)) s in
  if anotherRequestScheduled then
    saveSnapshot room edits_ userid_
      (set_saveQueue (<[room := false]> (saveQueue s1)) s1)
  else (s1, []).

(** ** [sendServerChanges] (lines 248-273) *)

Definition sendServerChanges (doc : RoomState) (send : Fn)
    (hc : Heap * ClientDoc) : Heap * ClientDoc * list Effect :=
  let '(h, clientDoc) := hc in
  let diff :=
    jdp_diff (read h (sh_doc (shadow clientDoc))) (read h (serverCopy doc)) in
  let basedOnServerVersion := sh_serverVersion (shadow clientDoc) in
  let '(h', clientDoc') :=
    if negb (isEmpty diff) then
      let edits' :=
        edits clientDoc ++
        [{| e_serverVersion := basedOnServerVersion;
            e_localVersion := sh_localVersion (shadow clientDoc);
            e_diff := diff |}] in
      let shadow' :=
        {| sh_doc := sh_doc (shadow clientDoc);
           sh_serverVersion := (sh_serverVersion (shadow clientDoc) + 1)%Z;
           sh_localVersion := sh_localVersion (shadow clientDoc) |} in
      let '(d, h1) := deepCopy diff h in
      (patch (sh_doc shadow') d h1,
       {| backup := backup clientDoc; shadow := shadow'; edits := edits' |})
    else (h, clientDoc) in
  (h', clientDoc',
   [SendToClient send
      {| r_localVersion := sh_localVersion (shadow clientDoc');
         r_serverVersion := basedOnServerVersion;
         r_edits := edits clientDoc' |}]).

(** ** [receiveEdit]: after the adapter's verdict (lines 152-213) *)

(** The body of [editMessage.edits.forEach] (lines 171-199) *)
Definition receiveEdit_edit (doc : RoomState) (edit : Edit)
    (hc : Heap * ClientDoc) : Heap * ClientDoc * list Effect :=
  let '(h, clientDoc) := hc in
  if ((e_serverVersion edit =? sh_serverVersion (shadow clientDoc))%Z &&
      (e_localVersion edit =? sh_localVersion (shadow clientDoc))%Z)%bool
  then
    let '(b, h1) := deepCopy (read h (sh_doc (shadow clientDoc))) h in
    let '(d1, h2) := deepCopy (e_diff edit) h1 in
    let h3 := patch (sh_doc (shadow clientDoc)) d1 h2 in
    let '(d2, h4) := deepCopy (e_diff edit) h3 in
    let h5 := patch (serverCopy doc) d2 h4 in
    let localVersion' :=
      if negb (isEmpty (e_diff edit))
      then (sh_localVersion (shadow clientDoc) + 1)%Z
      else sh_localVersion (shadow clientDoc) in
    (h5,
     {| backup := {| bk_doc := b;
                     bk_serverVersion := bk_serverVersion (backup clientDoc) |};
        shadow := {| sh_doc := sh_doc (shadow clientDoc);
                     sh_serverVersion := sh_serverVersion (shadow clientDoc);
                     sh_localVersion := localVersion' |};
        edits := edits clientDoc |},
     [])
  else
    (h, clientDoc,
     [ConsoleLog (e_serverVersion edit) (sh_serverVersion (shadow clientDoc))
        (e_localVersion edit) (sh_localVersion (shadow clientDoc))]).

(** [editMessage.edits.forEach(...)] *)
Fixpoint receiveEdit_forEach (doc : RoomState) (es : list Edit)
    (hc : Heap * ClientDoc) : Heap * ClientDoc * list Effect :=
  match es with
  | [] => (hc.1, hc.2, [])
  | edit :: rest =>
      let '(h, clientDoc, o1) := receiveEdit_edit doc edit hc in
      let '(h', clientDoc', o2) := receiveEdit_forEach doc rest (h, clientDoc) in
      (h', clientDoc', o1 ++ o2)
  end.

(** Lines 201-209: save, broadcast, reply.  [hc] is the heap and the
    client's record as the loop left them; [saveSnapshot] reads the room
    through the cache and writes neither the documents nor the rooms. *)
Definition receiveEdit_finish (connection : Connection)
    (editMessage : EditMessage) (doc : string) (d : RoomState)
    (sendToClient : Fn) (hc : Heap * ClientDoc) : Step := fun s =>
  let s1 := store_clientDoc doc (id connection) hc.2 (set_heap hc.1 s) in
  let '(s2, o2) :=
    saveSnapshot (m_room editMessage) (m_edits editMessage)
      (userid connection) s1 in
  let o3 :=
    if bool_decide (0 < length (m_edits editMessage))%nat
    then [TransportToEmit (m_room editMessage)
            (cmd_remoteUpdateIncoming COMMANDS) (id connection)]
    else [] in
  let '(h3, clientDoc3, o4) :=
    sendServerChanges d sendToClient (heap s2, hc.2) in
  (store_clientDoc doc (id connection) clientDoc3 (set_heap h3 s2),
   o2 ++ o3 ++ o4).

(** Lines 170-209: the loop over the edits and what follows it, from the
    client's record as the acknowledgement step left it. *)
Definition receiveEdit_process (connection : Connection)
    (editMessage : EditMessage) (doc : string) (d : RoomState)
    (sendToClient : Fn) (clientDoc : ClientDoc) : Step := fun s =>
  let '(h, clientDoc', o1) :=
    receiveEdit_forEach d (m_edits editMessage) (heap s, clientDoc) in
  let '(s', o2) :=
    receiveEdit_finish connection editMessage doc d sendToClient
      (h, clientDoc') s in
  (s', o1 ++ o2).

(** Lines 165-168: drop the queue the client has acknowledged. *)
Definition receiveEdit_ack (editMessage : EditMessage)
    (clientDoc : ClientDoc) : ClientDoc :=
  if decide (m_serverVersion editMessage =
             Some (sh_serverVersion (shadow clientDoc)))
  then {| backup := backup clientDoc; shadow := shadow clientDoc;
          edits := [] |}
  else clientDoc.

(** The function handed to [adapter.checkDiffs] (lines 152-213) *)
Definition checkDiffs_cb (connection : Connection)
    (editMessage : EditMessage) (doc : string) (sendToClient : Fn)
    (err res : bool) : Step := fun s =>
  if res then
    match data s !! doc with
    | Some d =>
        match err, clientVersions d !! id connection with
        | false, Some clientDoc =>
            receiveEdit_process connection editMessage doc d sendToClient
              (receiveEdit_ack editMessage clientDoc) s
        | _, _ =>
            (s, [ConnectionEmit (id connection) (cmd_error COMMANDS)
                   "Need to re-connect!"])
        end
    | None => (s, [])
    end
  else (s, []).

(** ** Events *)

(** What can happen to the server: a client request, a direct call of
    [saveSnapshot], or the adapter answering its [i]-th outstanding call. *)
Inductive Event : Type :=
| EvJoin (connection : Connection) (room : string) (initializeClient : Fn)
| EvSyncWithServer (connection : Connection) (editMessage : EditMessage)
    (sendToClient : Fn)
| EvSaveSnapshot (room : string) (edits : list Edit) (userid : string)
| EvGetDataDone (i : nat) (error : bool) (data : JsVal)
| EvCheckDiffsDone (i : nat) (err res : bool)
| EvStoreDataDone (i : nat).

Definition step (ev : Event) : Step := fun s =>
  match ev with
  | EvJoin connection room initializeClient =>
      joinConnection connection room initializeClient s
  | EvSyncWithServer connection editMessage sendToClient =>
      receiveEdit connection editMessage sendToClient s
  | EvSaveSnapshot room edits_ userid_ =>
      saveSnapshot room edits_ userid_ s
  | EvGetDataDone i error data_ =>
      match getDataCalls s !! i with
      | Some c =>
          getData_adapter_cb (gd_room c) (gd_callback c) error data_
            (set_getDataCalls (delete i (getDataCalls s)) s)
      | None => (s, [])
      end
  | EvCheckDiffsDone i err res =>
      match checkDiffsCalls s !! i with
      | Some c =>
          checkDiffs_cb (cd_connection c) (cd_editMessage c) (cd_doc c)
            (cd_sendToClient c) err res
            (set_checkDiffsCalls (delete i (checkDiffsCalls s)) s)
      | None => (s, [])
      end
  | EvStoreDataDone i =>
      match storeDataCalls s !! i with
      | Some c =>
          checkQueueAndSaveAgain (sd_room c) (sd_edits c) (sd_userid c)
            (set_storeDataCalls (delete i (storeDataCalls s)) s)
      | None => (s, [])
      end
  end.

(** A run: the events in order, from a given state. *)
Fixpoint run (evs : list Event) (s : Server) : Server * list Effect :=
  match evs with
  | [] => (s, [])
  | ev :: rest =>
      let '(s1, o1) := step ev s in
      let '(s2, o2) := run rest s1 in
      (s2, o1 ++ o2)
  end.

(** * The vocabulary of the properties *)

(** ** The edits of a message *)

(** The versions test of line 173. *)
Definition versions_match (edit : Edit) (clientDoc : ClientDoc) : Prop :=
  e_serverVersion edit = sh_serverVersion (shadow clientDoc) ∧
  e_localVersion edit = sh_localVersion (shadow clientDoc).

#[global] Instance versions_match_dec edit clientDoc :
  Decision (versions_match edit clientDoc).
Proof. unfold versions_match. apply _. Defined.

(** The references a client's record and its room hold are valid and the
    shadow is not the server copy. *)
Definition separated (h : Heap) (doc : RoomState) (clientDoc : ClientDoc)
  : Prop :=
  allocated h (sh_doc (shadow clientDoc)) ∧
  allocated h (serverCopy doc) ∧
  sh_doc (shadow clientDoc) ≠ serverCopy doc.

(** What an accepted edit leaves behind. *)
Record applied (doc : RoomState) (edit : Edit) (h : Heap)
    (clientDoc : ClientDoc) (h' : Heap) (clientDoc' : ClientDoc) : Prop := {
  (* the backup is a new object holding what the shadow held *)
  ap_backup_new : ¬ allocated h (bk_doc (backup clientDoc'));
  ap_backup_valid : allocated h' (bk_doc (backup clientDoc'));
  ap_backup : read h' (bk_doc (backup clientDoc')) =
              read h (sh_doc (shadow clientDoc));
  ap_backup_version : bk_serverVersion (backup clientDoc') =
                      bk_serverVersion (backup clientDoc);
  (* the shadow object and the server copy are each patched in place with
     the delta as the message carries it *)
  ap_shadow_ref : sh_doc (shadow clientDoc') = sh_doc (shadow clientDoc);
  ap_shadow : read h' (sh_doc (shadow clientDoc)) =
              (jdp_patch (read h (sh_doc (shadow clientDoc)))
                 (e_diff edit)).1;
  ap_serverCopy : read h' (serverCopy doc) =
                  (jdp_patch (read h (serverCopy doc)) (e_diff edit)).1;
  (* no other object of the old heap changes *)
  ap_frame : ∀ l, allocated h l → l ≠ sh_doc (shadow clientDoc) →
             l ≠ serverCopy doc → read h' l = read h l;
  ap_grows : (length h ≤ length h')%nat;
  (* the counters *)
  ap_serverVersion : sh_serverVersion (shadow clientDoc') =
                     sh_serverVersion (shadow clientDoc);
  ap_localVersion : sh_localVersion (shadow clientDoc') =
                    if isEmpty (e_diff edit)
                    then sh_localVersion (shadow clientDoc)
                    else (sh_localVersion (shadow clientDoc) + 1)%Z;
  ap_edits : edits clientDoc' = edits clientDoc
}.

(** ** The bookkeeping of outstanding calls *)

Definition count {A} (P : A → Prop) `{∀ x, Decision (P x)} (l : list A)
  : nat := length (filter P l).

#[local] Arguments count {A} P {_} l : simpl never.

(** The room a pending load will save, if that is what it was asked for. *)
Definition save_room (callback : Callback) : option string :=
  match callback with
  | CbSaveSnapshot room _ _ => Some room
  | _ => None
  end.

(** Outstanding [adapter.getData] calls for a room. *)
Definition loads (room : string) (s : Server) : nat :=
  count (λ c, gd_room c = room) (getDataCalls s).

(** Outstanding [adapter.storeData] calls for a room. *)
Definition stores (room : string) (s : Server) : nat :=
  count (λ c, sd_room c = room) (storeDataCalls s).

(** Saves of a room that wait for the room to load. *)
Definition saves_loading (room : string) (s : Server) : nat :=
  count (λ c, save_room (gd_callback c) = Some room) (getDataCalls s).

(** The bookkeeping of the server agrees with the calls that are
    outstanding at the adapter. *)
Record consistent (s : Server) : Prop := {
  co_loads : ∀ room, (loads room s ≤ 1)%nat;
  co_loading : ∀ c, c ∈ getDataCalls s →
    requests s !! gd_room c = Some true ∧ data s !! gd_room c = None;
  co_save_room : ∀ c room, c ∈ getDataCalls s →
    save_room (gd_callback c) = Some room → gd_room c = room;
  co_saves : ∀ room,
    (stores room s + saves_loading room s ≤
     Nat.b2n (is_true (saveRequests s !! room)))%nat;
  co_stored : ∀ c, c ∈ storeDataCalls s → is_Some (data s !! sd_room c);
  co_checked : ∀ c, c ∈ checkDiffsCalls s → is_Some (data s !! cd_doc c)
}.

(** Two states with the same bookkeeping, the same outstanding calls and
    the same rooms loaded. *)
Record same_shape (s s' : Server) : Prop := {
  ss_data : ∀ room, is_Some (data s' !! room) ↔ is_Some (data s !! room);
  ss_requests : requests s' = requests s;
  ss_saveRequests : saveRequests s' = saveRequests s;
  ss_saveQueue : saveQueue s' = saveQueue s;
  ss_getDataCalls : getDataCalls s' = getDataCalls s;
  ss_checkDiffsCalls : checkDiffsCalls s' = checkDiffsCalls s;
  ss_storeDataCalls : storeDataCalls s' = storeDataCalls s
}.

(** The state in which the callback of a completed load runs. *)
Definition loaded (room : string) (roomState : RoomState) (h : Heap)
    (i : nat) (s : Server) : Server :=
  set_requests (<[room := false]> (requests s))
    (set_data (<[room := roomState]> (data s))
       (set_heap h (set_getDataCalls (delete i (getDataCalls s)) s))).

(** A callback may add a [storeData] call only for the room it is called
    with, and only when no save of that room is outstanding. *)
Definition may_save (callback : Callback) (room : string) (s : Server)
  : Prop :=
  ∀ r, save_room callback = Some r →
       r = room ∧
       (stores r s + saves_loading r s + 1 ≤
        Nat.b2n (is_true (saveRequests s !! r)))%nat.

(** The states the server can be in. *)
Definition reachable (s : Server) : Prop :=
  ∃ evs, (run evs newServer).1 = s.

(** ** The references of a client *)

(** The shadow, the backup and the server copy of a client are three
    different objects of the heap. *)
Definition wf_client (h : Heap) (sc : loc) (c : ClientDoc) : Prop :=
  allocated h (sh_doc (shadow c)) ∧ allocated h sc ∧
  allocated h (bk_doc (backup c)) ∧
  sh_doc (shadow c) ≠ sc ∧ bk_doc (backup c) ≠ sc ∧
  bk_doc (backup c) ≠ sh_doc (shadow c).

Definition wf_heap (s : Server) : Prop :=
  ∀ room d, data s !! room = Some d →
    allocated (heap s) (serverCopy d) ∧
    ∀ cid c, clientVersions d !! cid = Some c →
             wf_client (heap s) (serverCopy d) c.

(** ** Loads *)

(** [adapter.getData] called for [room]. *)
Definition is_AdapterGetData (room : string) (e : Effect) : Prop :=
  match e with
  | AdapterGetData r _ => r = room
  | _ => False
  end.

#[global] Instance is_AdapterGetData_dec room e :
  Decision (is_AdapterGetData room e).
Proof. destruct e; cbn; apply _. Defined.



(** A room that is in the cache stays there. *)
Definition cached (room : string) (s : Server) : Prop :=
  is_Some (data s !! room).

(** ** Saves *)

(** Calls of [saveSnapshot] for one room, one after the other. *)
Definition arrivals (room : string) (calls : list (list Edit * string))
  : list Event :=
  (λ a, EvSaveSnapshot room a.1 a.2) <$> calls.

(** Events other than the completion of a [storeData] call. *)
Definition not_store_done (ev : Event) : Prop :=
  match ev with EvStoreDataDone _ => False | _ => True end.

(** Outstanding [storeData] calls stay where they are and the save flags
    that are set stay set. *)
Definition keeps (s s' : Server) : Prop :=
  (∃ l, storeDataCalls s' = storeDataCalls s ++ l) ∧
  (∀ room, is_true (saveQueue s !! room) = true →
           is_true (saveQueue s' !! room) = true) ∧
  (∀ room, is_true (saveRequests s !! room) = true →
           is_true (saveRequests s' !! room) = true).

(** ** [reset] (lines 86-105) *)

(** The loop of lines 88-93 over [this.saveRequests]: is some flag
    [true]? *)
Definition pending_saves (flags : gmap string bool) : bool :=
  map_fold (λ (_ : string) (flag pending : bool),
              if flag then true else pending) false flags.

(** How one run of [waitForDiffSyncServer] ends: it sets the timer for the
    next run, or it calls [callback]. *)
Inductive ResetStep : Type :=
| ResetWait
| ResetDone.

(** [waitForDiffSyncServer] (lines 87-103).  The four dictionaries are
    replaced by new ones; the calls that are outstanding at the adapter
    stay outstanding. *)
Definition waitForDiffSyncServer (s : Server) : Server * ResetStep :=
  if pending_saves (saveRequests s) then (s, ResetWait)
  else
    (set_saveQueue ∅ (set_saveRequests ∅ (set_requests ∅ (set_data ∅ s))),
     ResetDone).

(** [reset]: [waitForDiffSyncServer] runs at once and then every second
    until it is done.  [between] lists the events of each interval; the
    result tells whether [callback] was called within these intervals.
    The callbacks of loads and verdicts that were outstanding when the
    dictionaries were replaced hold the old ones: what their completion
    does afterwards is outside this model. *)
Fixpoint reset (between : list (list Event)) (s : Server)
  : Server * list Effect * bool :=
  match waitForDiffSyncServer s with
  | (s', ResetDone) => (s', [], true)
  | (s', ResetWait) =>
      match between with
      | [] => (s', [], false)
      | evs :: rest =>
          let '(s1, o1) := run evs s' in
          let '(s2, o2, done) := reset rest s1 in
          (s2, o1 ++ o2, done)
      end
  end.

(** ** Loads *)


(** ** Who holds a document *)

(** The places of the state that hold a reference to a document. *)
Inductive Owner : Type :=
| OwnServerCopy (room : string)
| OwnShadow (room cid : string)
| OwnBackup (room cid : string).

Definition owns (s : Server) (o : Owner) (l : loc) : Prop :=
  match o with
  | OwnServerCopy room =>
      ∃ d, data s !! room = Some d ∧ serverCopy d = l
  | OwnShadow room cid =>
      ∃ d c, data s !! room = Some d ∧ clientVersions d !! cid = Some c ∧
             sh_doc (shadow c) = l
  | OwnBackup room cid =>
      ∃ d c, data s !! room = Some d ∧ clientVersions d !! cid = Some c ∧
             bk_doc (backup c) = l
  end.

(** Every reference is valid and no two places hold the same object. *)
Definition no_alias (s : Server) : Prop :=
  (∀ o l, owns s o l → allocated (heap s) l) ∧
  (∀ o1 o2 l, owns s o1 l → owns s o2 l → o1 = o2).

(** ** The versions and the queue of a client *)

(** An edit of the queue was made before the shadow reached its present
    versions, from a delta that is not empty. *)
Definition edit_ok (c : ClientDoc) (e : Edit) : Prop :=
  (0 ≤ e_serverVersion e < sh_serverVersion (shadow c))%Z ∧
  (0 ≤ e_localVersion e ≤ sh_localVersion (shadow c))%Z ∧
  isEmpty (e_diff e) = false.

(** The order of the queue: oldest first. *)
Definition older (a b : Edit) : Prop :=
  (e_serverVersion a < e_serverVersion b)%Z ∧
  (e_localVersion a ≤ e_localVersion b)%Z.

Definition client_ok (c : ClientDoc) : Prop :=
  (0 ≤ sh_serverVersion (shadow c))%Z ∧
  (0 ≤ sh_localVersion (shadow c))%Z ∧
  bk_serverVersion (backup c) = 0%Z ∧
  Forall (edit_ok c) (edits c) ∧
  StronglySorted older (edits c).

Definition clients_ok (s : Server) : Prop :=
  ∀ room d cid c, data s !! room = Some d →
    clientVersions d !! cid = Some c → client_ok c.

(** ** Messages *)

(** Edits that continue the shadow one after the other: each is based on
    server version [sv], the local versions count up from [lv], and no
    delta is empty. *)
Fixpoint in_sequence (sv lv : Z) (es : list Edit) : Prop :=
  match es with
  | [] => True
  | e :: rest =>
      e_serverVersion e = sv ∧ e_localVersion e = lv ∧
      isEmpty (e_diff e) = false ∧ in_sequence sv (lv + 1) rest
  end.

(** A document patched with the deltas of the edits, in order. *)
Definition patch_all (v : JsVal) (es : list Edit) : JsVal :=
  fold_left (λ v e, (jdp_patch v (e_diff e)).1) es v.

Definition is_ConsoleLog (e : Effect) : Prop :=
  match e with ConsoleLog _ _ _ _ => True | _ => False end.


(** ** Saves that never run *)

(** [adapter.storeData] called for [room]. *)
Definition is_AdapterStoreData (room : string) (e : Effect) : Prop :=
  match e with
  | AdapterStoreData r _ _ _ => r = room
  | _ => False
  end.

#[global] Instance is_AdapterStoreData_dec room e :
  Decision (is_AdapterStoreData room e).
Proof. destruct e; cbn; apply _. Defined.

(** A save of the room is marked as in progress, but no [storeData] call
    is outstanding for it and none waits for the room to load. *)
Definition stuck (room : string) (s : Server) : Prop :=
  is_true (saveRequests s !! room) = true ∧
  stores room s = 0%nat ∧ saves_loading room s = 0%nat.

(** Nothing of [o] is a [storeData] call for [room]. *)
Definition no_store (room : string) (o : list Effect) : Prop :=
  Forall (λ e, ¬ is_AdapterStoreData room e) o.

(** The room stays stuck and nothing is stored for it. *)
Definition stays_stuck (room : string) (r : Server * list Effect) : Prop :=
  stuck room r.1 ∧ no_store room r.2.

(** * Properties *)

(** ** The heap *)

Lemma read_app_l (h t : Heap) (l : loc) :
  allocated h l → read (h ++ t) l = read h l.
Proof.
  unfold allocated, read. intros Hl. by rewrite lookup_app_l.
Qed.

Lemma read_app_new (h : Heap) (v : JsVal) : read (h ++ [v]) (length h) = v.
Proof.
  unfold read. rewrite lookup_app_r by lia.
  by rewrite Nat.sub_diag.
Qed.

Lemma length_patch (t d : loc) (h : Heap) : length (patch t d h) = length h.
Proof.
  unfold patch. destruct (jdp_patch _ _). by rewrite !length_insert.
Qed.

Lemma read_patch_target (t d : loc) (h : Heap) :
  t ≠ d → allocated h t →
  read (patch t d h) t = (jdp_patch (read h t) (read h d)).1.
Proof.
  unfold allocated, patch, read at 1. intros Hne Hl.
  destruct (jdp_patch _ _) as [v δ]. cbn.
  rewrite list_lookup_insert_ne by done.
  by rewrite list_lookup_insert_eq.
Qed.

Lemma read_patch_other (t d l : loc) (h : Heap) :
  l ≠ t → l ≠ d → read (patch t d h) l = read h l.
Proof.
  unfold patch, read. intros Ht Hd.
  destruct (jdp_patch _ _) as [v δ].
  by rewrite !list_lookup_insert_ne.
Qed.

(** ** The loop over the edits *)

Lemma receiveEdit_edit_rejected doc edit h clientDoc :
  ¬ versions_match edit clientDoc →
  receiveEdit_edit doc edit (h, clientDoc) =
  (h, clientDoc,
   [ConsoleLog (e_serverVersion edit) (sh_serverVersion (shadow clientDoc))
      (e_localVersion edit) (sh_localVersion (shadow clientDoc))]).
Proof.
  unfold versions_match, receiveEdit_edit. intros Hno.
  destruct (Z.eqb_spec (e_serverVersion edit)
              (sh_serverVersion (shadow clientDoc)));
    destruct (Z.eqb_spec (e_localVersion edit)
                (sh_localVersion (shadow clientDoc)));
    cbn; tauto.
Qed.

Ltac heap_side :=
  unfold allocated in *;
  repeat (rewrite length_app || rewrite length_patch);
  cbn [length]; lia.

Ltac heap_read :=
  repeat first
    [ rewrite read_app_new
    | rewrite read_app_l by heap_side
    | rewrite read_patch_other by heap_side
    | rewrite read_patch_target by heap_side ].

Lemma receiveEdit_edit_applied doc edit h clientDoc :
  separated h doc clientDoc →
  versions_match edit clientDoc →
  ∃ h' clientDoc',
    receiveEdit_edit doc edit (h, clientDoc) = (h', clientDoc', []) ∧
    applied doc edit h clientDoc h' clientDoc'.
Proof.
  intros (Hsh & Hsc & Hne) [Hsv Hlv].
  unfold receiveEdit_edit.
  rewrite Hsv, Hlv, !Z.eqb_refl. cbn [andb deepCopy alloc].
  eexists _, _. split; [reflexivity|].
  split; cbn [bk_doc backup sh_doc shadow bk_serverVersion sh_serverVersion
              sh_localVersion edits]; try done.
  - heap_side.
  - heap_side.
  - by heap_read.
  - by heap_read.
  - by heap_read.
  - intros l Hl Hnsh Hnsc. by heap_read.
  - heap_side.
  - by destruct (isEmpty (e_diff edit)).
Qed.

Lemma receiveEdit_edit_separated doc edit h clientDoc h' clientDoc' o :
  separated h doc clientDoc →
  receiveEdit_edit doc edit (h, clientDoc) = (h', clientDoc', o) →
  separated h' doc clientDoc'.
Proof.
  intros Hsep Heq.
  destruct (decide (versions_match edit clientDoc)) as [Hm|Hm].
  - destruct (receiveEdit_edit_applied doc edit h clientDoc Hsep Hm)
      as (h1 & c1 & Heq1 & Hap).
    rewrite Heq1 in Heq. simplify_eq.
    destruct Hsep as (Hsh & Hsc & Hne), Hap.
    unfold separated, allocated in *.
    rewrite ap_shadow_ref0. repeat split; [lia|lia|done].
  - rewrite receiveEdit_edit_rejected in Heq by done. by simplify_eq.
Qed.

#[local] Arguments receiveEdit_edit : simpl never.



(** ** The handler of the adapter's verdict *)

Lemma checkDiffs_cb_allowed s connection editMessage doc sendToClient d
    clientDoc :
  data s !! doc = Some d →
  clientVersions d !! id connection = Some clientDoc →
  checkDiffs_cb connection editMessage doc sendToClient false true s =
  receiveEdit_process connection editMessage doc d sendToClient
    (receiveEdit_ack editMessage clientDoc) s.
Proof.
  intros Hd Hc. unfold checkDiffs_cb. by rewrite Hd, Hc.
Qed.

(** Line 160: a truthy result that comes with an error is answered like an
    unknown client, whether the client is known or not. *)
Lemma checkDiffs_cb_error s connection editMessage doc sendToClient d :
  data s !! doc = Some d →
  checkDiffs_cb connection editMessage doc sendToClient true true s =
  (s, [ConnectionEmit (id connection) (cmd_error COMMANDS)
         "Need to re-connect!"]).
Proof. intros Hd. unfold checkDiffs_cb. by rewrite Hd. Qed.

Lemma receiveEdit_ack_shadow editMessage clientDoc :
  shadow (receiveEdit_ack editMessage clientDoc) = shadow clientDoc.
Proof. unfold receiveEdit_ack. by case_decide. Qed.

Lemma receiveEdit_ack_backup editMessage clientDoc :
  backup (receiveEdit_ack editMessage clientDoc) = backup clientDoc.
Proof. unfold receiveEdit_ack. by case_decide. Qed.



(** C9: when the adapter allows a message but the room has no record for
    the connection, the handler emits the error event with the payload
    "Need to re-connect!" to that connection and does nothing else: the
    state is the one it started from, and no other effect happens. *)
Theorem receiveEdit_unknown_client
    (s : Server) (connection : Connection) (editMessage : EditMessage)
    (sendToClient : Fn) (doc : string) (d : RoomState) (err : bool) :
  data s !! doc = Some d →
  clientVersions d !! id connection = None →
  checkDiffs_cb connection editMessage doc sendToClient err true s =
  (s, [ConnectionEmit (id connection) (cmd_error COMMANDS)
         "Need to re-connect!"]).
Proof.
  intros Hd Hc. unfold checkDiffs_cb. rewrite Hd, Hc. by destruct err.
Qed.

(** C7: a message on which the adapter's verdict is falsy is dropped
    silently.  The handler of the verdict returns the state it was given
    and does nothing, so the completion of the outstanding call only
    removes that call: no reply, no broadcast, no error event, no save, no
    change to any room.  Before the verdict, [receiveEdit] itself only
    consults the adapter: it leaves the heap, the rooms and the save
    bookkeeping as they are and does at most one adapter call. *)
Theorem receiveEdit_disallowed
    (s : Server) (connection : Connection) (editMessage : EditMessage)
    (sendToClient : Fn) (doc : string) (err : bool) :
  checkDiffs_cb connection editMessage doc sendToClient err false s = (s, [])
  ∧ (∀ i c, checkDiffsCalls s !! i = Some c →
       step (EvCheckDiffsDone i err false) s =
       (set_checkDiffsCalls (delete i (checkDiffsCalls s)) s, []))
  ∧ (let '(s1, o) := receiveEdit connection editMessage sendToClient s in
     heap s1 = heap s ∧ data s1 = data s ∧
     saveRequests s1 = saveRequests s ∧ saveQueue s1 = saveQueue s ∧
     storeDataCalls s1 = storeDataCalls s ∧
     (o = [] ∨
      o = [AdapterGetData (m_room editMessage) (userid connection)] ∨
      ∃ d, o = [AdapterCheckDiffs editMessage d])).
Proof.
  split; [done|]. split.
  - intros i c Hc. cbn. by rewrite Hc.
  - unfold receiveEdit, getData.
    destruct (data s !! m_room editMessage) as [d|] eqn:Hd.
    + unfold call, receiveEdit_cb. rewrite Hd. cbn. repeat split; eauto.
    + destruct (is_true (requests s !! m_room editMessage)); cbn;
        repeat split; eauto.
Qed.

(** ** [sendServerChanges] *)

(** C2: with [d] the delta from the shadow document to the server copy
    and [basedOn] the shadow's server version on entry, [sendServerChanges]
    calls the reply function exactly once, with the shadow's local
    version, [basedOn] and the client's queue.  If [d] is not empty the
    queue first receives the edit made of [basedOn], the local version and
    [d], the server version goes up by one and the shadow object is patched
    with [d]; if [d] is empty nothing changes. *)
Theorem sendServerChanges_reply
    (doc : RoomState) (send : Fn) (h : Heap) (clientDoc : ClientDoc) :
  allocated h (sh_doc (shadow clientDoc)) →
  let d := jdp_diff (read h (sh_doc (shadow clientDoc)))
             (read h (serverCopy doc)) in
  let basedOn := sh_serverVersion (shadow clientDoc) in
  ∃ h' clientDoc',
    sendServerChanges doc send (h, clientDoc) =
      (h', clientDoc',
       [SendToClient send
          {| r_localVersion := sh_localVersion (shadow clientDoc');
             r_serverVersion := basedOn;
             r_edits := edits clientDoc' |}]) ∧
    (isEmpty d = false →
       edits clientDoc' =
         edits clientDoc ++
         [{| e_serverVersion := basedOn;
             e_localVersion := sh_localVersion (shadow clientDoc);
             e_diff := d |}] ∧
       sh_serverVersion (shadow clientDoc') = (basedOn + 1)%Z ∧
       sh_localVersion (shadow clientDoc') =
         sh_localVersion (shadow clientDoc) ∧
       sh_doc (shadow clientDoc') = sh_doc (shadow clientDoc) ∧
       backup clientDoc' = backup clientDoc ∧
       read h' (sh_doc (shadow clientDoc)) =
         (jdp_patch (read h (sh_doc (shadow clientDoc))) d).1 ∧
       ∀ l, allocated h l → l ≠ sh_doc (shadow clientDoc) →
            read h' l = read h l) ∧
    (isEmpty d = true → h' = h ∧ clientDoc' = clientDoc).
Proof.
  intros Hsh d basedOn. unfold sendServerChanges. fold d.
  destruct (isEmpty d) eqn:He; cbn [negb deepCopy alloc].
  - eexists _, _. split; [reflexivity|]. split; [done|]. by intros _.
  - eexists _, _. split; [reflexivity|]. split; [|done]. intros _.
    cbn. repeat split; try done.
    + by heap_read.
    + intros l Hl Hne. by heap_read.
Qed.

(** ** Counting outstanding calls *)

Lemma count_app {A} (P : A → Prop) `{∀ x, Decision (P x)} (l1 l2 : list A) :
  count P (l1 ++ l2) = (count P l1 + count P l2)%nat.
Proof. unfold count. by rewrite filter_app, length_app. Qed.

Lemma count_singleton {A} (P : A → Prop) `{∀ x, Decision (P x)} (x : A) :
  count P [x] = if decide (P x) then 1%nat else 0%nat.
Proof. unfold count. rewrite filter_cons. by case_decide. Qed.

Lemma count_delete {A} (P : A → Prop) `{∀ x, Decision (P x)}
    (l : list A) (i : nat) (x : A) :
  l !! i = Some x →
  count P l =
  (count P (delete i l) + if decide (P x) then 1 else 0)%nat.
Proof.
  intros Hi. rewrite <- (take_drop_middle l i x Hi) at 1.
  rewrite delete_take_drop, !count_app.
  change (x :: drop (S i) l) with ([x] ++ drop (S i) l).
  rewrite count_app, count_singleton. lia.
Qed.

Lemma count_pos {A} (P : A → Prop) `{∀ x, Decision (P x)}
    (l : list A) (x : A) :
  x ∈ l → P x → (0 < count P l)%nat.
Proof.
  intros Hx HP. unfold count.
  assert (Hin : x ∈ filter P l) by by apply list_elem_of_filter.
  destruct (filter P l); [by apply elem_of_nil in Hin|cbn; lia].
Qed.

Lemma count_zero {A} (P : A → Prop) `{∀ x, Decision (P x)} (l : list A) :
  (∀ x, x ∈ l → ¬ P x) → count P l = 0%nat.
Proof.
  intros Hno. unfold count.
  destruct (filter P l) as [|x l'] eqn:Hf; [done|].
  assert (Hin : x ∈ filter P l) by (rewrite Hf; left).
  apply list_elem_of_filter in Hin as [HP Hin]. by destruct (Hno x).
Qed.

Lemma same_shape_update s doc cid c h :
  same_shape s (store_clientDoc doc cid c (set_heap h s)).
Proof.
  split; try done. intros room. cbn. apply lookup_alter_is_Some.
Qed.

Lemma consistent_same_shape s s' :
  same_shape s s' → consistent s → consistent s'.
Proof.
  intros [Hd Hr Hsr Hsq Hg Hc Hst] [H1 H2 H3 H4 H5 H6].
  split; unfold loads, stores, saves_loading in *;
    rewrite ?Hr, ?Hsr, ?Hg, ?Hc, ?Hst; try done.
  - intros c Hc'. destruct (H2 c Hc') as [? Hnone]. split; [done|].
    apply eq_None_not_Some. rewrite Hd. by rewrite Hnone; intros [??].
  - intros c Hc'. apply Hd. by apply H5.
  - intros c Hc'. apply Hd. by apply H6.
Qed.

Lemma consistent_newServer : consistent newServer.
Proof.
  split; cbn.
  - intros room. unfold loads, count. cbn. lia.
  - intros c Hc. by apply elem_of_nil in Hc.
  - intros c room Hc. by apply elem_of_nil in Hc.
  - intros room. unfold stores, saves_loading, count. cbn. lia.
  - intros c Hc. by apply elem_of_nil in Hc.
  - intros c Hc. by apply elem_of_nil in Hc.
Qed.

Lemma is_true_Some_true (o : option bool) :
  is_true o = true ↔ o = Some true.
Proof. destruct o as [[]|]; cbn; naive_solver. Qed.

(** *** The elementary updates keep the bookkeeping consistent *)

Lemma consistent_add_check s c :
  consistent s → is_Some (data s !! cd_doc c) →
  consistent (set_checkDiffsCalls (checkDiffsCalls s ++ [c]) s).
Proof.
  intros [H1 H2 H3 H4 H5 H6] Hc. split; try done. cbn.
  intros c' [Hin | ->%list_elem_of_singleton]%elem_of_app; auto.
Qed.

Lemma consistent_delete_check s i :
  consistent s →
  consistent (set_checkDiffsCalls (delete i (checkDiffsCalls s)) s).
Proof.
  intros [H1 H2 H3 H4 H5 H6]. split; try done. cbn.
  intros c Hin. apply H6. by eapply list_elem_of_delete_inv.
Qed.

Lemma consistent_add_store s c :
  consistent s → is_Some (data s !! sd_room c) →
  (stores (sd_room c) s + saves_loading (sd_room c) s + 1 ≤
   Nat.b2n (is_true (saveRequests s !! sd_room c)))%nat →
  consistent (set_storeDataCalls (storeDataCalls s ++ [c]) s).
Proof.
  intros [H1 H2 H3 H4 H5 H6] Hc Hroom. split; try done; cbn.
  - intros room. unfold stores, saves_loading in *. cbn.
    rewrite count_app, count_singleton. specialize (H4 room).
    case_decide; [subst room|]; lia.
  - intros c' [Hin | ->%list_elem_of_singleton]%elem_of_app; auto.
Qed.

Lemma consistent_add_load s room userid_ callback :
  consistent s → data s !! room = None →
  is_true (requests s !! room) = false →
  (∀ r, save_room callback = Some r →
        r = room ∧
        (stores r s + saves_loading r s + 1 ≤
         Nat.b2n (is_true (saveRequests s !! r)))%nat) →
  consistent
    (set_getDataCalls
       (getDataCalls s ++
        [{| gd_room := room; gd_userid := userid_;
            gd_callback := callback |}])
       (set_requests (<[room := true]> (requests s)) s)).
Proof.
  intros [H1 H2 H3 H4 H5 H6] Hnone Hreq Hsave. split; try done; cbn.
  - intros r. unfold loads in *. cbn.
    rewrite count_app, count_singleton. cbn. specialize (H1 r).
    case_decide; [subst r|lia].
    rewrite (count_zero _ (getDataCalls s)); [lia|].
    intros c Hc Heq. destruct (H2 c Hc) as [Htrue _].
    rewrite Heq in Htrue. rewrite Htrue in Hreq. done.
  - intros c [Hin | ->%list_elem_of_singleton]%elem_of_app; cbn.
    + destruct (H2 c Hin) as [Ht Hn]. split; [|done].
      destruct (decide (room = gd_room c)) as [->|Hne].
      * by rewrite lookup_insert_eq.
      * by rewrite lookup_insert_ne.
    + by rewrite lookup_insert_eq.
  - intros c r [Hin | ->%list_elem_of_singleton]%elem_of_app; cbn.
    + by apply H3.
    + intros Hs. by destruct (Hsave r Hs).
  - intros r. unfold stores, saves_loading in *. cbn.
    rewrite count_app, count_singleton. cbn. specialize (H4 r).
    case_decide as Hs; [|lia]. destruct (Hsave r Hs) as [_ ?].
    unfold stores, saves_loading in *. lia.
Qed.

Lemma consistent_request_again s room :
  consistent s →
  consistent (set_requests (<[room := true]> (requests s)) s).
Proof.
  intros [H1 H2 H3 H4 H5 H6]. split; try done; cbn.
  intros c Hin. destruct (H2 c Hin) as [Ht Hn]. split; [|done].
  destruct (decide (room = gd_room c)) as [->|Hne].
  - by rewrite lookup_insert_eq.
  - by rewrite lookup_insert_ne.
Qed.

Lemma consistent_saveRequests_true s room :
  consistent s →
  consistent (set_saveRequests (<[room := true]> (saveRequests s)) s).
Proof.
  intros [H1 H2 H3 H4 H5 H6]. split; try done; cbn.
  intros r. specialize (H4 r). unfold stores, saves_loading in *. cbn.
  destruct (decide (room = r)) as [->|Hne].
  - rewrite lookup_insert_eq. cbn.
    destruct (is_true (saveRequests s !! r)); cbn in *; lia.
  - by rewrite lookup_insert_ne.
Qed.

Lemma consistent_saveQueue s q :
  consistent s → consistent (set_saveQueue q s).
Proof. intros [H1 H2 H3 H4 H5 H6]. by split. Qed.

Lemma consistent_store_done s i c :
  consistent s → storeDataCalls s !! i = Some c →
  consistent
    (set_saveRequests (<[sd_room c := false]> (saveRequests s))
       (set_storeDataCalls (delete i (storeDataCalls s)) s)).
Proof.
  intros [H1 H2 H3 H4 H5 H6] Hi. split; try done; cbn.
  - intros r. specialize (H4 r). unfold stores, saves_loading in *. cbn.
    rewrite (count_delete _ _ _ _ Hi) in H4.
    destruct (decide (sd_room c = r)) as [Heq|Hne].
    + rewrite Heq, lookup_insert_eq. cbn.
      destruct (is_true (saveRequests s !! r)); cbn in *; lia.
    + rewrite lookup_insert_ne by done. lia.
  - intros c' Hin. apply H5. by eapply list_elem_of_delete_inv.
Qed.

Lemma consistent_loaded s i c roomState h :
  consistent s → getDataCalls s !! i = Some c →
  let s1 := loaded (gd_room c) roomState h i s in
  consistent s1 ∧
  ∀ r, save_room (gd_callback c) = Some r →
       r = gd_room c ∧
       (stores r s1 + saves_loading r s1 + 1 ≤
        Nat.b2n (is_true (saveRequests s1 !! r)))%nat.
Proof.
  intros [H1 H2 H3 H4 H5 H6] Hi s1.
  assert (Hin : c ∈ getDataCalls s) by by eapply list_elem_of_lookup_2.
  assert (Hother : ∀ c', c' ∈ delete i (getDataCalls s) →
                         gd_room c' ≠ gd_room c).
  { intros c' Hc' Heq. specialize (H1 (gd_room c)). unfold loads in H1.
    rewrite (count_delete _ _ _ _ Hi), decide_True in H1 by done.
    pose proof (count_pos (λ x, gd_room x = gd_room c) _ c' Hc' Heq). lia. }
  split; [split|]; cbn.
  - intros r. specialize (H1 r). unfold loads in *. cbn.
    rewrite (count_delete _ _ _ _ Hi) in H1. lia.
  - intros c' Hc'. pose proof (Hother c' Hc').
    destruct (H2 c') as [Ht Hn]; [by eapply list_elem_of_delete_inv|].
    by rewrite !lookup_insert_ne.
  - intros c' r Hc'. apply H3. by eapply list_elem_of_delete_inv.
  - intros r. specialize (H4 r). unfold stores, saves_loading in *. cbn.
    rewrite (count_delete _ (getDataCalls s) _ _ Hi) in H4. lia.
  - intros c' Hc'. destruct (decide (gd_room c = sd_room c')) as [->|Hne].
    + by rewrite lookup_insert_eq.
    + rewrite lookup_insert_ne by done. by apply H5.
  - intros c' Hc'. destruct (decide (gd_room c = cd_doc c')) as [->|Hne].
    + by rewrite lookup_insert_eq.
    + rewrite lookup_insert_ne by done. by apply H6.
  - intros r Hs. split; [symmetry; by eapply H3|].
    specialize (H4 r). unfold stores, saves_loading in *. cbn.
    rewrite (count_delete _ (getDataCalls s) _ _ Hi), decide_True in H4
      by done.
    lia.
Qed.

(** *** The handlers keep the bookkeeping consistent *)

Lemma call_uncached callback room s :
  data s !! room = None → call callback room s = (s, []).
Proof.
  intros Hd. destruct callback; cbn;
    unfold joinConnection_cb, receiveEdit_cb, saveSnapshot_cb;
    by rewrite Hd.
Qed.

Lemma consistent_call callback room s :
  consistent s → may_save callback room s →
  consistent (call callback room s).1.
Proof.
  intros Hs Hsave.
  destruct (data s !! room) as [d|] eqn:Hd;
    [|by rewrite call_uncached].
  destruct callback as [c r f|c m f|r e u]; cbn;
    unfold joinConnection_cb, receiveEdit_cb, saveSnapshot_cb;
    rewrite Hd; cbn.
  - eapply consistent_same_shape; [apply same_shape_update|done].
  - apply consistent_add_check; [done|]. cbn. by rewrite Hd.
  - destruct (Hsave r eq_refl) as [-> Hle].
    apply consistent_add_store; [done| |done]. cbn. by rewrite Hd.
Qed.

Lemma consistent_getData room userid_ callback s :
  consistent s → may_save callback room s →
  consistent (getData room userid_ callback s).1.
Proof.
  intros Hs Hsave. unfold getData.
  destruct (data s !! room) as [d|] eqn:Hd.
  - by apply consistent_call.
  - destruct (is_true (requests s !! room)) eqn:Hr; cbn.
    + by apply consistent_request_again.
    + by apply consistent_add_load.
Qed.

Lemma consistent_saveSnapshot room edits_ userid_ s :
  consistent s → consistent (saveSnapshot room edits_ userid_ s).1.
Proof.
  intros Hs. unfold saveSnapshot.
  destruct (is_true (saveRequests s !! room)) eqn:Hr; cbn [negb].
  - by apply consistent_saveQueue.
  - apply consistent_getData.
    + by apply consistent_saveRequests_true.
    + intros r [= <-]. split; [done|].
      pose proof (co_saves s Hs room) as Hle. rewrite Hr in Hle.
      unfold stores, saves_loading in *. cbn in *.
      rewrite lookup_insert_eq. cbn. lia.
Qed.

Lemma consistent_checkQueueAndSaveAgain s i c :
  consistent s → storeDataCalls s !! i = Some c →
  consistent
    (checkQueueAndSaveAgain (sd_room c) (sd_edits c) (sd_userid c)
       (set_storeDataCalls (delete i (storeDataCalls s)) s)).1.
Proof.
  intros Hs Hi. unfold checkQueueAndSaveAgain.
  pose proof (consistent_store_done s i c Hs Hi) as Hs1.
  destruct (is_true _); [|done].
  apply consistent_saveSnapshot. by apply consistent_saveQueue.
Qed.

Lemma consistent_receiveEdit_finish connection editMessage doc d
    sendToClient hc s :
  consistent s →
  consistent
    (receiveEdit_finish connection editMessage doc d sendToClient hc s).1.
Proof.
  intros Hs. unfold receiveEdit_finish.
  destruct (saveSnapshot _ _ _ _) as [s2 o2] eqn:Hsave.
  destruct (sendServerChanges _ _ _) as [[h3 c3] o4]. cbn.
  eapply consistent_same_shape; [apply same_shape_update|].
  change s2 with (s2, o2).1. rewrite <- Hsave.
  apply consistent_saveSnapshot.
  eapply consistent_same_shape; [apply same_shape_update|done].
Qed.

Lemma consistent_checkDiffs_cb connection editMessage doc sendToClient
    err res s :
  consistent s →
  consistent
    (checkDiffs_cb connection editMessage doc sendToClient err res s).1.
Proof.
  intros Hs. unfold checkDiffs_cb.
  destruct res; [|done].
  destruct (data s !! doc) as [d|]; [|done].
  destruct err; [done|].
  destruct (clientVersions d !! id connection) as [c|]; [|done].
  unfold receiveEdit_process.
  destruct (receiveEdit_forEach _ _ _) as [[h c'] o1].
  destruct (receiveEdit_finish _ _ _ _ _ _ _) as [s' o2] eqn:Hf.
  change s' with (s', o2).1. rewrite <- Hf.
  by apply consistent_receiveEdit_finish.
Qed.

Lemma consistent_step ev s : consistent s → consistent (step ev s).1.
Proof.
  intros Hs. destruct ev as [c r f|c m f|r e u|i error v|i err res|i]; cbn.
  - apply consistent_getData; [done|]. by intros r' [=].
  - apply consistent_getData; [done|]. by intros r' [=].
  - by apply consistent_saveSnapshot.
  - destruct (getDataCalls s !! i) as [c|] eqn:Hi; [|done].
    unfold getData_adapter_cb. cbn [alloc].
    destruct (consistent_loaded s i c
                {| registeredSockets := []; clientVersions := ∅;
                   serverCopy := length (heap s) |}
                (heap s ++ [v]) Hs Hi) as [Hs1 Hsave].
    by apply consistent_call.
  - destruct (checkDiffsCalls s !! i) as [c|] eqn:Hi; [|done].
    apply consistent_checkDiffs_cb. by apply consistent_delete_check.
  - destruct (storeDataCalls s !! i) as [c|] eqn:Hi; [|done].
    by apply consistent_checkQueueAndSaveAgain.
Qed.

Lemma run_app evs1 evs2 s :
  run (evs1 ++ evs2) s =
  let '(s1, o1) := run evs1 s in
  let '(s2, o2) := run evs2 s1 in
  (s2, o1 ++ o2).
Proof.
  revert s. induction evs1 as [|ev evs1 IH]; intros s; cbn.
  - by destruct (run evs2 s).
  - destruct (step ev s) as [s1 o1]. rewrite IH.
    destruct (run evs1 s1) as [s2 o2]. destruct (run evs2 s2) as [s3 o3].
    by rewrite app_assoc.
Qed.

Lemma consistent_run evs s : consistent s → consistent (run evs s).1.
Proof.
  revert s. induction evs as [|ev evs IH]; intros s Hs; cbn; [done|].
  destruct (step ev s) as [s1 o1] eqn:Hstep.
  specialize (IH s1). destruct (run evs s1) as [s2 o2]. cbn in *.
  apply IH. change s1 with (s1, o1).1. rewrite <- Hstep.
  by apply consistent_step.
Qed.


Lemma reachable_step ev s : reachable s → reachable (step ev s).1.
Proof.
  intros [evs <-]. exists (evs ++ [ev]). rewrite run_app.
  destruct (run evs newServer) as [s1 o1]. cbn.
  by destruct (step ev s1).
Qed.

(** ** References stay valid and apart *)

Lemma wf_client_separated h d c :
  wf_client h (serverCopy d) c → separated h d c.
Proof.
  unfold wf_client, separated. intros (Ha & Hb & Hc & Hd & He & Hf).
  by repeat split.
Qed.

Lemma wf_client_grow h h' sc c :
  (length h ≤ length h')%nat → wf_client h sc c → wf_client h' sc c.
Proof.
  unfold wf_client, allocated. intros Hle (Ha & Hb & Hc & Hd & He & Hf).
  repeat split; lia.
Qed.

Lemma wf_heap_update s doc cid c h' :
  wf_heap s → (length (heap s) ≤ length h')%nat →
  (∀ d, data s !! doc = Some d → wf_client h' (serverCopy d) c) →
  wf_heap (store_clientDoc doc cid c (set_heap h' s)).
Proof.
  intros Hwf Hle Hc room d'. cbn.
  intros [[<- (d & Hd & ->)] | [Hne Hd]]%lookup_alter_Some.
  - destruct (Hwf _ _ Hd) as [Hsc Hcs]. cbn. split.
    + unfold allocated in *. lia.
    + intros cid' c'. destruct (decide (cid = cid')) as [<-|Hcid].
      * rewrite lookup_insert_eq. intros [= <-]. by apply Hc.
      * rewrite lookup_insert_ne by done. intros Hc'.
        eapply wf_client_grow; [done|]. by eapply Hcs.
  - destruct (Hwf _ _ Hd) as [Hsc Hcs]. split.
    + unfold allocated in *. lia.
    + intros cid' c' Hc'. eapply wf_client_grow; [done|]. by eapply Hcs.
Qed.

Lemma receiveEdit_edit_wf d edit h c h' c' o :
  wf_client h (serverCopy d) c →
  receiveEdit_edit d edit (h, c) = (h', c', o) →
  wf_client h' (serverCopy d) c' ∧ (length h ≤ length h')%nat.
Proof.
  intros Hwf Heq.
  destruct (decide (versions_match edit c)) as [Hm|Hm].
  - destruct (receiveEdit_edit_applied d edit h c
                (wf_client_separated _ _ _ Hwf) Hm)
      as (h1 & c1 & Heq1 & Hap).
    rewrite Heq1 in Heq. simplify_eq. destruct Hap.
    destruct Hwf as (?&?&?&?&?&?).
    unfold wf_client, allocated in *. rewrite ap_shadow_ref0.
    repeat split; lia.
  - rewrite receiveEdit_edit_rejected in Heq by done. by simplify_eq.
Qed.

Lemma receiveEdit_forEach_wf d es h c h' c' o :
  wf_client h (serverCopy d) c →
  receiveEdit_forEach d es (h, c) = (h', c', o) →
  wf_client h' (serverCopy d) c' ∧ (length h ≤ length h')%nat.
Proof.
  revert h c o. induction es as [|e es IH]; intros h c o Hwf; cbn.
  - intros; by simplify_eq.
  - destruct (receiveEdit_edit d e (h, c)) as [[h1 c1] o1] eqn:He.
    destruct (receiveEdit_forEach d es (h1, c1)) as [[h2 c2] o2] eqn:Hes.
    intros; simplify_eq.
    destruct (receiveEdit_edit_wf _ _ _ _ _ _ _ Hwf He) as [Hwf1 Hle1].
    destruct (IH _ _ _ Hwf1 Hes) as [Hwf2 Hle2]. split; [done|lia].
Qed.

Lemma sendServerChanges_wf d send h c h' c' o :
  wf_client h (serverCopy d) c →
  sendServerChanges d send (h, c) = (h', c', o) →
  wf_client h' (serverCopy d) c' ∧ (length h ≤ length h')%nat.
Proof.
  intros Hwf. unfold sendServerChanges.
  destruct (isEmpty _); cbn [negb deepCopy alloc]; intros; simplify_eq.
  - done.
  - destruct Hwf as (?&?&?&?&?&?). unfold wf_client, allocated in *. cbn.
    rewrite length_patch, length_app. cbn. repeat split; lia.
Qed.

(** [saveSnapshot] touches neither the documents nor the rooms. *)
Lemma call_save_heap_data room edits_ userid_ data_ s :
  heap (call (CbSaveSnapshot room edits_ userid_) data_ s).1 = heap s ∧
  data (call (CbSaveSnapshot room edits_ userid_) data_ s).1 = data s.
Proof. cbn. unfold saveSnapshot_cb. by destruct (data s !! data_). Qed.

Lemma saveSnapshot_heap_data room edits_ userid_ s :
  heap (saveSnapshot room edits_ userid_ s).1 = heap s ∧
  data (saveSnapshot room edits_ userid_ s).1 = data s.
Proof.
  unfold saveSnapshot.
  destruct (is_true (saveRequests s !! room)); cbn [negb]; [done|].
  unfold getData. cbn [data set_saveRequests requests].
  destruct (data s !! room).
  - exact (call_save_heap_data _ _ _ _ _).
  - by destruct (is_true (requests s !! room)).
Qed.

Lemma wf_heap_same s s' :
  heap s' = heap s → data s' = data s → wf_heap s → wf_heap s'.
Proof. unfold wf_heap. by intros -> ->. Qed.

Lemma wf_heap_call callback room s :
  wf_heap s → wf_heap (call callback room s).1.
Proof.
  intros Hwf. destruct (data s !! room) as [d|] eqn:Hd;
    [|by rewrite call_uncached].
  destruct callback as [c r f|c m f|r e u].
  - cbn. unfold joinConnection_cb. rewrite Hd. cbn.
    destruct (Hwf _ _ Hd) as [Hsc _].
    apply wf_heap_update; [done|rewrite !length_app; cbn; lia|].
    intros d' Hd'. simplify_eq. unfold wf_client, allocated in *. cbn.
    rewrite !length_app. cbn. repeat split; lia.
  - cbn. unfold receiveEdit_cb. by rewrite Hd.
  - eapply wf_heap_same; [apply call_save_heap_data..|done].
Qed.

Lemma wf_heap_getData room userid_ callback s :
  wf_heap s → wf_heap (getData room userid_ callback s).1.
Proof.
  intros Hwf. unfold getData. destruct (data s !! room) as [d|] eqn:Hd.
  - by apply wf_heap_call.
  - by destruct (is_true (requests s !! room)).
Qed.

Lemma wf_heap_checkDiffs_cb connection editMessage doc sendToClient
    err res s :
  wf_heap s →
  wf_heap (checkDiffs_cb connection editMessage doc sendToClient err res s).1.
Proof.
  intros Hwf. unfold checkDiffs_cb.
  destruct res; [|done].
  destruct (data s !! doc) as [d|] eqn:Hd; [|done].
  destruct err; [done|].
  destruct (clientVersions d !! id connection) as [c|] eqn:Hc; [|done].
  destruct (Hwf _ _ Hd) as [Hsc Hcs]. specialize (Hcs _ _ Hc).
  assert (Hwc : wf_client (heap s) (serverCopy d)
                  (receiveEdit_ack editMessage c)).
  { unfold wf_client in *.
    by rewrite receiveEdit_ack_shadow, receiveEdit_ack_backup. }
  unfold receiveEdit_process.
  destruct (receiveEdit_forEach _ _ _) as [[h c'] o1] eqn:Hloop.
  destruct (receiveEdit_forEach_wf _ _ _ _ _ _ _ Hwc Hloop) as [Hwc' Hle].
  unfold receiveEdit_finish. cbn [fst snd].
  set (s1 := store_clientDoc doc (id connection) c' (set_heap h s)).
  assert (Hwf1 : wf_heap s1).
  { apply wf_heap_update; [done..|]. intros d' Hd'. by simplify_eq. }
  destruct (saveSnapshot_heap_data (m_room editMessage)
              (m_edits editMessage) (userid connection) s1) as [Hh2 Hd2].
  destruct (saveSnapshot _ _ _ s1) as [s2 o2]. cbn in Hh2, Hd2.
  destruct (sendServerChanges _ _ _) as [[h3 c3] o4] eqn:Hsend. cbn.
  rewrite Hh2 in Hsend. cbn in Hsend.
  destruct (sendServerChanges_wf _ _ _ _ _ _ _ Hwc' Hsend) as [Hwc3 Hle3].
  apply wf_heap_update.
  - by apply (wf_heap_same s1).
  - by rewrite Hh2.
  - intros d'. rewrite Hd2. subst s1. cbn. rewrite lookup_alter_eq, Hd. cbn.
    by intros [= <-].
Qed.

Lemma wf_heap_step ev s : wf_heap s → wf_heap (step ev s).1.
Proof.
  intros Hwf. destruct ev as [c r f|c m f|r e u|i error v|i err res|i]; cbn.
  - by apply wf_heap_getData.
  - by apply wf_heap_getData.
  - eapply wf_heap_same; [apply saveSnapshot_heap_data..|done].
  - destruct (getDataCalls s !! i) as [c|] eqn:Hi; [|done].
    unfold getData_adapter_cb. cbn [alloc]. apply wf_heap_call.
    intros room d. cbn.
    destruct (decide (gd_room c = room)) as [<-|Hne].
    + rewrite lookup_insert_eq. intros [= <-]. cbn. split.
      * unfold allocated. rewrite length_app. cbn. lia.
      * intros cid c'. by rewrite lookup_empty.
    + rewrite lookup_insert_ne by done. intros Hd.
      destruct (Hwf _ _ Hd) as [Hsc Hcs]. split.
      * unfold allocated in *. rewrite length_app. lia.
      * intros cid c' Hc'. eapply wf_client_grow; [|by eapply Hcs].
        rewrite length_app. lia.
  - destruct (checkDiffsCalls s !! i) as [c|] eqn:Hi; [|done].
    by apply wf_heap_checkDiffs_cb.
  - destruct (storeDataCalls s !! i) as [c|] eqn:Hi; [|done].
    unfold checkQueueAndSaveAgain. destruct (is_true _); [|done].
    eapply wf_heap_same; [apply saveSnapshot_heap_data..|done].
Qed.

Lemma wf_heap_run evs s : wf_heap s → wf_heap (run evs s).1.
Proof.
  revert s. induction evs as [|ev evs IH]; intros s Hs; cbn; [done|].
  destruct (step ev s) as [s1 o1] eqn:Hstep.
  specialize (IH s1). destruct (run evs s1) as [s2 o2]. cbn in *.
  apply IH. change s1 with (s1, o1).1. rewrite <- Hstep.
  by apply wf_heap_step.
Qed.

(** In every state the server can reach, the references of every client
    are valid and its shadow is not the server copy. *)
Lemma reachable_separated s room d cid c :
  reachable s → data s !! room = Some d →
  clientVersions d !! cid = Some c → separated (heap s) d c.
Proof.
  intros [evs <-] Hd Hc. apply wf_client_separated.
  assert (Hwf : wf_heap (run evs newServer).1).
  { apply wf_heap_run. intros r d'. cbn. by rewrite lookup_empty. }
  by eapply Hwf.
Qed.

(** ** Loading a room *)


Lemma count_cons {A} (P : A → Prop) `{∀ x, Decision (P x)} x (l : list A) :
  count P (x :: l) = ((if decide (P x) then 1 else 0) + count P l)%nat.
Proof. unfold count. rewrite filter_cons. by case_decide. Qed.














Lemma cached_call room callback data_ s :
  cached room s → cached room (call callback data_ s).1.
Proof.
  destruct (data s !! data_) as [d|] eqn:Hd;
    [|by rewrite call_uncached].
  destruct callback as [c r f|c m f|r e u]; cbn;
    unfold joinConnection_cb, receiveEdit_cb, saveSnapshot_cb;
    rewrite Hd; cbn; try done.
  unfold cached. cbn. by rewrite lookup_alter_is_Some.
Qed.

Lemma cached_getData room r userid_ callback s :
  cached room s → cached room (getData r userid_ callback s).1.
Proof.
  unfold getData. destruct (data s !! r) as [d|] eqn:Hd.
  - apply cached_call.
  - by destruct (is_true (requests s !! r)).
Qed.

Lemma cached_saveSnapshot room r edits_ userid_ s :
  cached room s → cached room (saveSnapshot r edits_ userid_ s).1.
Proof.
  unfold cached.
  by destruct (saveSnapshot_heap_data r edits_ userid_ s) as [_ ->].
Qed.

Lemma cached_step room ev s : cached room s → cached room (step ev s).1.
Proof.
  destruct ev as [c r f|c m f|r e u|i error v|i err res|i]; cbn.
  - apply cached_getData.
  - apply cached_getData.
  - apply cached_saveSnapshot.
  - destruct (getDataCalls s !! i) as [c|] eqn:Hi; [|done].
    unfold getData_adapter_cb. cbn [alloc]. intros Hc.
    apply cached_call. unfold cached in *. cbn.
    destruct (decide (gd_room c = room)) as [->|Hne].
    + by rewrite lookup_insert_eq.
    + by rewrite lookup_insert_ne.
  - destruct (checkDiffsCalls s !! i) as [c|] eqn:Hi; [|done].
    unfold checkDiffs_cb. destruct res; [|done].
    destruct (data _ !! cd_doc c) as [d|]; [|done].
    destruct err; [done|].
    destruct (clientVersions d !! _) as [c0|]; [|done].
    unfold receiveEdit_process.
    destruct (receiveEdit_forEach _ _ _) as [[h c'] o1].
    unfold receiveEdit_finish. cbn [fst snd].
    match goal with |- context [saveSnapshot ?r ?e ?u ?s1] =>
      pose proof (cached_saveSnapshot room r e u s1) as Hsave;
      destruct (saveSnapshot r e u s1) as [s2 o2]
    end.
    destruct (sendServerChanges _ _ _) as [[h3 c3] o4]. cbn in *.
    intros Hc. unfold cached in *. cbn in *.
    rewrite lookup_alter_is_Some. apply Hsave.
    by rewrite lookup_alter_is_Some.
  - destruct (storeDataCalls s !! i) as [c|] eqn:Hi; [|done].
    unfold checkQueueAndSaveAgain. destruct (is_true _); [|done].
    match goal with |- context [saveSnapshot ?r ?e ?u ?s1] =>
      exact (cached_saveSnapshot room r e u s1) end.
Qed.

Lemma cached_run room evs s : cached room s → cached room (run evs s).1.
Proof.
  revert s. induction evs as [|ev evs IH]; intros s Hs; cbn; [done|].
  pose proof (cached_step room ev s Hs) as Hs1.
  destruct (step ev s) as [s1 o1]. specialize (IH s1 Hs1).
  by destruct (run evs s1).
Qed.


(** ** Saving snapshots *)

Lemma saveSnapshot_busy room edits_ userid_ s :
  is_true (saveRequests s !! room) = true →
  saveSnapshot room edits_ userid_ s =
  (set_saveQueue (<[room := true]> (saveQueue s)) s, []).
Proof. intros Hb. unfold saveSnapshot. by rewrite Hb. Qed.

Lemma saveSnapshot_idle_cached room edits_ userid_ s d :
  is_true (saveRequests s !! room) = false →
  data s !! room = Some d →
  saveSnapshot room edits_ userid_ s =
  (set_storeDataCalls
     (storeDataCalls s ++
      [{| sd_room := room; sd_userid := userid_; sd_edits := edits_ |}])
     (set_saveRequests (<[room := true]> (saveRequests s)) s),
   [AdapterStoreData room userid_ (read (heap s) (serverCopy d)) edits_]).
Proof.
  intros Hi Hd. unfold saveSnapshot, getData. rewrite Hi. cbn.
  rewrite Hd. unfold saveSnapshot_cb. cbn. by rewrite Hd.
Qed.

(** The completion of a [storeData] call, for a room that is cached. *)
Lemma store_done s i c d :
  storeDataCalls s !! i = Some c → data s !! sd_room c = Some d →
  step (EvStoreDataDone i) s =
  if is_true (saveQueue s !! sd_room c) then
    (set_storeDataCalls (delete i (storeDataCalls s) ++ [c])
       (set_saveRequests
          (<[sd_room c := true]> (<[sd_room c := false]> (saveRequests s)))
          (set_saveQueue (<[sd_room c := false]> (saveQueue s)) s)),
     [AdapterStoreData (sd_room c) (sd_userid c)
        (read (heap s) (serverCopy d)) (sd_edits c)])
  else
    (set_saveRequests (<[sd_room c := false]> (saveRequests s))
       (set_storeDataCalls (delete i (storeDataCalls s)) s), []).
Proof.
  intros Hi Hd. cbn [step]. rewrite Hi. unfold checkQueueAndSaveAgain.
  cbn [saveQueue set_storeDataCalls].
  destruct (is_true (saveQueue s !! sd_room c)) eqn:Hq; [|done].
  erewrite saveSnapshot_idle_cached; [|by cbn; rewrite lookup_insert_eq|
                                      exact Hd].
  by destruct c.
Qed.

Lemma run_cons ev evs s :
  run (ev :: evs) s =
  let '(s1, o1) := step ev s in
  let '(s2, o2) := run evs s1 in
  (s2, o1 ++ o2).
Proof. done. Qed.

Lemma step_saveSnapshot room edits_ userid_ s :
  step (EvSaveSnapshot room edits_ userid_) s =
  saveSnapshot room edits_ userid_ s.
Proof. done. Qed.


Lemma keeps_refl s : keeps s s.
Proof. split; [exists []; by rewrite app_nil_r|done]. Qed.

Lemma is_true_insert_true (m : gmap string bool) (room r : string) :
  is_true (m !! r) = true → is_true (<[room := true]> m !! r) = true.
Proof.
  intros Hr. destruct (decide (room = r)) as [->|Hne].
  - by rewrite lookup_insert_eq.
  - by rewrite lookup_insert_ne.
Qed.

Lemma keeps_trans s1 s2 s3 : keeps s1 s2 → keeps s2 s3 → keeps s1 s3.
Proof.
  intros [[l1 H1] [Hq1 Hr1]] [[l2 H2] [Hq2 Hr2]]. split; [|split; by auto].
  exists (l1 ++ l2). by rewrite H2, H1, app_assoc.
Qed.

Lemma keeps_same s s' :
  storeDataCalls s' = storeDataCalls s → saveQueue s' = saveQueue s →
  saveRequests s' = saveRequests s →
  keeps s s'.
Proof.
  intros H1 H2 H3.
  split; [exists []; by rewrite app_nil_r|by rewrite H2, H3].
Qed.

Lemma keeps_call callback data_ s : keeps s (call callback data_ s).1.
Proof.
  destruct (data s !! data_) as [d|] eqn:Hd;
    [|rewrite call_uncached by done; apply keeps_refl].
  destruct callback as [c r f|c m f|r e u]; cbn;
    unfold joinConnection_cb, receiveEdit_cb, saveSnapshot_cb;
    rewrite Hd; cbn; try by apply keeps_same.
  split; [by eexists|done].
Qed.

Lemma keeps_getData room userid_ callback s :
  keeps s (getData room userid_ callback s).1.
Proof.
  unfold getData. destruct (data s !! room) as [d|] eqn:Hd.
  - apply keeps_call.
  - by destruct (is_true (requests s !! room)); apply keeps_same.
Qed.

Lemma keeps_saveSnapshot room edits_ userid_ s :
  keeps s (saveSnapshot room edits_ userid_ s).1.
Proof.
  unfold saveSnapshot.
  destruct (is_true (saveRequests s !! room)); cbn [negb].
  - split; [exists []; by rewrite app_nil_r|]. cbn.
    split; [|done]. intros r. apply is_true_insert_true.
  - eapply keeps_trans; [|apply keeps_getData].
    split; [exists []; by rewrite app_nil_r|]. cbn.
    split; [done|]. intros r. apply is_true_insert_true.
Qed.

Lemma keeps_step ev s : not_store_done ev → keeps s (step ev s).1.
Proof.
  destruct ev as [c r f|c m f|r e u|i error v|i err res|i]; cbn;
    intros Hev; try done.
  - apply keeps_getData.
  - apply keeps_getData.
  - apply keeps_saveSnapshot.
  - destruct (getDataCalls s !! i) as [c|] eqn:Hi; [|apply keeps_refl].
    unfold getData_adapter_cb. cbn [alloc].
    eapply keeps_trans; [|apply keeps_call]. by apply keeps_same.
  - destruct (checkDiffsCalls s !! i) as [c|] eqn:Hi; [|apply keeps_refl].
    unfold checkDiffs_cb. destruct res; [|by apply keeps_same].
    destruct (data _ !! cd_doc c) as [d|]; [|by apply keeps_same].
    destruct err; [by apply keeps_same|].
    destruct (clientVersions d !! _) as [c0|]; [|by apply keeps_same].
    unfold receiveEdit_process.
    destruct (receiveEdit_forEach _ _ _) as [[h c'] o1].
    unfold receiveEdit_finish. cbn [fst snd].
    match goal with |- context [saveSnapshot ?r ?e ?u ?s1] =>
      pose proof (keeps_saveSnapshot r e u s1) as Hsave;
      destruct (saveSnapshot r e u s1) as [s2 o2]
    end.
    destruct (sendServerChanges _ _ _) as [[h3 c3] o4]. cbn in *.
    eapply keeps_trans; [|eapply keeps_trans; [exact Hsave|]];
      by apply keeps_same.
Qed.

Lemma keeps_run evs s :
  Forall not_store_done evs → keeps s (run evs s).1.
Proof.
  revert s. induction evs as [|ev evs IH]; intros s Hevs; cbn;
    [apply keeps_refl|].
  apply Forall_cons in Hevs as [Hev Hevs].
  pose proof (keeps_step ev s Hev) as H1.
  destruct (step ev s) as [s1 o1]. specialize (IH s1 Hevs).
  destruct (run evs s1) as [s2 o2]. by eapply keeps_trans.
Qed.




(** C10: let [saveSnapshot] be called for a cached room with no save in
    progress, with arguments [edits0] and [userid0]; let any events other
    than completions of [storeData] calls follow, among them at least one
    further call of [saveSnapshot] for the room, with whatever arguments.
    When the [storeData] call of the first invocation then completes, the
    one that follows is given [edits0] and [userid0] again, and the
    document that the room holds at that moment. *)
Theorem saveSnapshot_followup_arguments
    (s : Server) (room : string) (edits0 : list Edit) (userid0 : string)
    (evs1 : list Event) (edits1 : list Edit) (userid1 : string)
    (evs2 : list Event) :
  cached room s →
  is_true (saveRequests s !! room) = false →
  Forall not_store_done evs1 →
  Forall not_store_done evs2 →
  let n := length (storeDataCalls s) in
  let s2 :=
    (run (EvSaveSnapshot room edits0 userid0 ::
          evs1 ++ EvSaveSnapshot room edits1 userid1 :: evs2) s).1 in
  ∃ d0 d2,
    data s !! room = Some d0 ∧ data s2 !! room = Some d2 ∧
    (step (EvSaveSnapshot room edits0 userid0) s).2 =
      [AdapterStoreData room userid0 (read (heap s) (serverCopy d0))
         edits0] ∧
    (step (EvStoreDataDone n) s2).2 =
      [AdapterStoreData room userid0 (read (heap s2) (serverCopy d2))
         edits0].
Proof.
  intros [d0 Hd0] Hidle Hevs1 Hevs2 n s2.
  set (c0 := {| sd_room := room; sd_userid := userid0;
                sd_edits := edits0 |}).
  pose proof (saveSnapshot_idle_cached room edits0 userid0 s d0 Hidle Hd0)
    as Hfirst.
  subst s2. rewrite run_cons, step_saveSnapshot, Hfirst, run_app.
  cbn [fst snd].
  (* after the first call *)
  match goal with |- context [run evs1 ?sa] =>
    assert (Hca : storeDataCalls sa !! n = Some c0)
      by (subst n; cbn; by rewrite lookup_app_r, Nat.sub_diag by lia);
    assert (Hba : is_true (saveRequests sa !! room) = true)
      by (cbn; by rewrite lookup_insert_eq);
    assert (Hda : cached room sa) by (by exists d0);
    pose proof (keeps_run evs1 sa Hevs1) as [[l1 Hl1] [_ Hb1]];
    pose proof (cached_run room evs1 sa Hda) as Hdb;
    destruct (run evs1 sa) as [sb ob]
  end.
  cbn [fst] in Hl1, Hb1, Hdb.
  assert (Hcb : storeDataCalls sb !! n = Some c0).
  { rewrite Hl1. by apply lookup_app_l_Some. }
  (* the later call raises the flag *)
  rewrite run_cons, step_saveSnapshot,
    (saveSnapshot_busy room edits1 userid1 sb) by by apply Hb1.
  match goal with |- context [run evs2 ?sc] =>
    assert (Hcc : storeDataCalls sc !! n = Some c0) by done;
    assert (Hqc : is_true (saveQueue sc !! room) = true)
      by (cbn; by rewrite lookup_insert_eq);
    assert (Hdc : cached room sc) by done;
    pose proof (keeps_run evs2 sc Hevs2) as [[l2 Hl2] [Hq2 _]];
    pose proof (cached_run room evs2 sc Hdc) as [d2 Hd2];
    destruct (run evs2 sc) as [sd od]
  end.
  cbn [fst snd] in *.
  assert (Hcd : storeDataCalls sd !! n = Some c0).
  { rewrite Hl2. by apply lookup_app_l_Some. }
  exists d0, d2. split_and!; [done..|].
  rewrite (store_done sd n c0 d2 Hcd Hd2). cbn [sd_room c0].
  by rewrite (Hq2 room Hqc).
Qed.

(** ** What the load leaves out *)

(** [error] is never read: a failed load is handled like a successful
    one. *)
Lemma getData_adapter_cb_error room callback data_ s :
  getData_adapter_cb room callback true data_ s =
  getData_adapter_cb room callback false data_ s.
Proof. done. Qed.

(** A caller that arrives while the room is being loaded leaves no trace:
    the callback is not recorded, and the state is the one before. *)
Lemma getData_pending_forgets room userid_ callback s :
  data s !! room = None → requests s !! room = Some true →
  getData room userid_ callback s = (s, []).
Proof.
  intros Hd Hr. unfold getData. rewrite Hd, Hr. cbn.
  rewrite insert_id by done. by destruct s.
Qed.

(** * Further properties *)

(** ** Joining *)

Lemma read_app_two (h : Heap) (a b : JsVal) :
  read (h ++ [a; b]) (length h) = a ∧
  read (h ++ [a; b]) (S (length h)) = b ∧
  ∀ l, allocated h l → read (h ++ [a; b]) l = read h l.
Proof.
  split_and!.
  - unfold read. by rewrite lookup_app_r, Nat.sub_diag by lia.
  - unfold read. rewrite lookup_app_r by lia.
    by replace (S (length h) - length h)%nat with 1%nat by lia.
  - intros l Hl. by apply read_app_l.
Qed.

(** The callback of a join, for a room that is cached. *)
Lemma joinConnection_cb_cached s connection room initializeClient data_ d :
  data s !! data_ = Some d →
  allocated (heap s) (serverCopy d) →
  let c := {| backup := {| bk_doc := length (heap s);
                           bk_serverVersion := 0 |};
              shadow := {| sh_doc := S (length (heap s));
                           sh_serverVersion := 0; sh_localVersion := 0 |};
              edits := [] |} in
  let v := read (heap s) (serverCopy d) in
  joinConnection_cb connection room initializeClient data_ s =
  (store_clientDoc data_ (id connection) c (set_heap (heap s ++ [v; v]) s),
   [ConnectionJoin (id connection) room; InitializeClient initializeClient v]).
Proof.
  intros Hd Hsc c v. unfold joinConnection_cb. rewrite Hd.
  cbn [deepCopy alloc]. rewrite (read_app_l _ [v]) by done. fold v.
  rewrite <- (app_assoc _ [v] [v]). cbn [app].
  rewrite length_app, Nat.add_1_r. cbn [length]. fold c.
  f_equal. f_equal. f_equal. subst v. by heap_read.
Qed.

Lemma store_clientDoc_data s doc cid c h d :
  data s !! doc = Some d →
  data (store_clientDoc doc cid c (set_heap h s)) =
  <[doc := set_clientDoc cid c d]> (data s).
Proof.
  intros Hd. cbn. apply map_eq. intros r.
  destruct (decide (doc = r)) as [<-|Hne].
  - by rewrite lookup_alter_eq, lookup_insert_eq, Hd.
  - by rewrite lookup_alter_ne, lookup_insert_ne.
Qed.

(** X1: a join for a room that is in the cache answers at once: the
    connection is joined to the room and [initializeClient] receives the
    server copy.  The room gets a record for the connection with both
    versions 0 and an empty queue, whose shadow and backup are two new
    objects holding the server copy's value; a record the connection had
    before is replaced.  No other record, room or document changes, and
    the adapter is not called. *)
Theorem joinConnection_cached
    (s : Server) (connection : Connection) (room : string)
    (initializeClient : Fn) (d : RoomState) :
  data s !! room = Some d →
  allocated (heap s) (serverCopy d) →
  ∃ s' c,
    joinConnection connection room initializeClient s =
      (s', [ConnectionJoin (id connection) room;
            InitializeClient initializeClient
              (read (heap s) (serverCopy d))]) ∧
    data s' = <[room := set_clientDoc (id connection) c d]> (data s) ∧
    sh_serverVersion (shadow c) = 0%Z ∧ sh_localVersion (shadow c) = 0%Z ∧
    bk_serverVersion (backup c) = 0%Z ∧ edits c = [] ∧
    ¬ allocated (heap s) (sh_doc (shadow c)) ∧
    ¬ allocated (heap s) (bk_doc (backup c)) ∧
    sh_doc (shadow c) ≠ bk_doc (backup c) ∧
    read (heap s') (sh_doc (shadow c)) = read (heap s) (serverCopy d) ∧
    read (heap s') (bk_doc (backup c)) = read (heap s) (serverCopy d) ∧
    (∀ l, allocated (heap s) l → read (heap s') l = read (heap s) l) ∧
    requests s' = requests s ∧ saveRequests s' = saveRequests s ∧
    saveQueue s' = saveQueue s ∧ getDataCalls s' = getDataCalls s ∧
    checkDiffsCalls s' = checkDiffsCalls s ∧
    storeDataCalls s' = storeDataCalls s.
Proof.
  intros Hd Hsc. unfold joinConnection, getData. rewrite Hd.
  cbn [call]. rewrite (joinConnection_cb_cached _ _ _ _ _ d Hd Hsc).
  eexists _, _. split; [reflexivity|].
  split; [by apply store_clientDoc_data|].
  destruct (read_app_two (heap s) (read (heap s) (serverCopy d))
              (read (heap s) (serverCopy d))) as (Hb & Hsh & Hold).
  cbn. split_and!; try done.
  - unfold allocated. lia.
  - unfold allocated. lia.
Qed.







(** ** Messages that come again, messages that continue *)

Lemma forEach_all_rejected doc es h c :
  Forall (λ e, ¬ versions_match e c) es →
  receiveEdit_forEach doc es (h, c) =
  (h, c,
   (λ e, ConsoleLog (e_serverVersion e) (sh_serverVersion (shadow c))
           (e_localVersion e) (sh_localVersion (shadow c))) <$> es).
Proof.
  induction 1 as [|e es He Hes IH]; [done|].
  cbn [receiveEdit_forEach]. rewrite receiveEdit_edit_rejected by done.
  by rewrite IH.
Qed.

(** X5: edits that do not carry the shadow's two versions are all
    dropped, whatever they are: the loop changes neither the documents nor
    the client's record, and logs one line for each edit. *)
Theorem receiveEdit_stale_edits_ignored
    (doc : RoomState) (es : list Edit) (h : Heap) (c : ClientDoc) :
  Forall (λ e, ¬ versions_match e c) es →
  ∃ logs,
    receiveEdit_forEach doc es (h, c) = (h, c, logs) ∧
    length logs = length es ∧ Forall is_ConsoleLog logs.
Proof.
  intros Hes. eexists. split; [by apply forEach_all_rejected|].
  split; [by rewrite length_fmap|].
  apply Forall_fmap, Forall_true. by intros e.
Qed.

Lemma forEach_sequence doc es h c :
  separated h doc c →
  in_sequence (sh_serverVersion (shadow c)) (sh_localVersion (shadow c)) es →
  ∃ h' c',
    receiveEdit_forEach doc es (h, c) = (h', c', []) ∧
    sh_doc (shadow c') = sh_doc (shadow c) ∧
    sh_serverVersion (shadow c') = sh_serverVersion (shadow c) ∧
    sh_localVersion (shadow c') =
      (sh_localVersion (shadow c) + Z.of_nat (length es))%Z ∧
    edits c' = edits c ∧
    read h' (sh_doc (shadow c)) = patch_all (read h (sh_doc (shadow c))) es ∧
    read h' (serverCopy doc) = patch_all (read h (serverCopy doc)) es ∧
    (∀ pre last, es = pre ++ [last] →
       read h' (bk_doc (backup c')) =
       patch_all (read h (sh_doc (shadow c))) pre) ∧
    (∀ l, allocated h l → l ≠ sh_doc (shadow c) → l ≠ serverCopy doc →
          read h' l = read h l) ∧
    (length h ≤ length h')%nat.
Proof.
  revert h c. induction es as [|e es IH]; intros h c Hsep Hseq.
  - exists h, c. cbn. split_and!; try done; [lia|].
    intros pre last Hnil. by destruct pre.
  - destruct Hseq as (Hsv & Hlv & Hne & Hrest).
    destruct (receiveEdit_edit_applied doc e h c Hsep (conj Hsv Hlv))
      as (h1 & c1 & He & Hap).
    pose proof (receiveEdit_edit_separated _ _ _ _ _ _ _ Hsep He) as Hsep1.
    destruct Hap as [Abn Abv Ab Abs Ashr Ash Asc Afr Agr Asv Alv Aed].
    rewrite Hne in Alv.
    destruct (IH h1 c1 Hsep1) as (h' & c' & Hes & H1 & H2 & H3 & H4 & H5 &
                                  H6 & H7 & H8 & H9).
    { by rewrite Asv, Alv. }
    exists h', c'. cbn [receiveEdit_forEach]. rewrite He, Hes.
    destruct Hsep as (Hsh & Hsc & Hdiff).
    rewrite Ashr in H1, H5, H7, H8.
    split_and!.
    + done.
    + done.
    + by rewrite H2.
    + rewrite H3, Alv. cbn [length]. lia.
    + by rewrite H4.
    + by rewrite H5, Ash.
    + by rewrite H6, Asc.
    + intros pre last Heq. destruct pre as [|e' pre].
      * cbn in Heq. simplify_eq. cbn in Hes. by simplify_eq.
      * cbn in Heq. simplify_eq.
        by rewrite (H7 pre last eq_refl), Ash.
    + intros l Hl Hnsh Hnsc. rewrite H8; [by apply Afr| |done..].
      unfold allocated in *. lia.
    + lia.
Qed.


Lemma in_sequence_versions sv lv es :
  in_sequence sv lv es →
  Forall (λ e, (lv ≤ e_localVersion e < lv + Z.of_nat (length es))%Z) es.
Proof.
  revert lv. induction es as [|e es IH]; intros lv; [done|].
  intros (_ & Hlv & _ & Hrest). constructor.
  - cbn [length]. lia.
  - eapply Forall_impl; [by apply IH|]. cbn [length]. intros e'. cbn. lia.
Qed.

(** X7: a batch of edits that continue the shadow is applied once: when
    the same edits are processed again after they were applied, every one
    of them is dropped and nothing changes. *)
Theorem receiveEdit_redelivery_ignored
    (doc : RoomState) (es : list Edit) (h : Heap) (c : ClientDoc) :
  separated h doc c →
  in_sequence (sh_serverVersion (shadow c)) (sh_localVersion (shadow c)) es →
  ∃ h' c' logs,
    receiveEdit_forEach doc es (h, c) = (h', c', []) ∧
    receiveEdit_forEach doc es (h', c') = (h', c', logs) ∧
    length logs = length es ∧ Forall is_ConsoleLog logs.
Proof.
  intros Hsep Hseq.
  destruct (forEach_sequence doc es h c Hsep Hseq)
    as (h' & c' & Hes & _ & _ & Hlv & _).
  exists h', c'. eexists. split; [done|]. split.
  - apply forEach_all_rejected.
    eapply Forall_impl; [by eapply in_sequence_versions|].
    intros e He [_ Hm]. cbn in He. rewrite Hlv in Hm. lia.
  - split; [by rewrite length_fmap|].
    apply Forall_fmap, Forall_true. by intros e.
Qed.

(** ** A message that is allowed *)

Lemma receiveEdit_edit_record d e h c h' c' o :
  receiveEdit_edit d e (h, c) = (h', c', o) →
  sh_doc (shadow c') = sh_doc (shadow c) ∧
  sh_serverVersion (shadow c') = sh_serverVersion (shadow c) ∧
  (sh_localVersion (shadow c) ≤ sh_localVersion (shadow c') ≤
   sh_localVersion (shadow c) + 1)%Z ∧
  edits c' = edits c ∧
  bk_serverVersion (backup c') = bk_serverVersion (backup c) ∧
  Forall is_ConsoleLog o ∧ (length h ≤ length h')%nat.
Proof.
  unfold receiveEdit_edit.
  destruct (_ && _)%bool; cbn [deepCopy alloc]; intros Heq;
    injection Heq as <- <- <-;
    cbn [shadow backup sh_doc sh_serverVersion sh_localVersion edits
         bk_serverVersion].
  - split_and!; try done; try (by constructor).
    + destruct (isEmpty _); cbn; lia.
    + destruct (isEmpty _); cbn; lia.
    + repeat (rewrite length_patch || rewrite length_app).
      cbn [length]. lia.
  - split_and!; try done; try lia. by repeat constructor.
Qed.

Lemma receiveEdit_forEach_record d es h c h' c' o :
  receiveEdit_forEach d es (h, c) = (h', c', o) →
  sh_doc (shadow c') = sh_doc (shadow c) ∧
  sh_serverVersion (shadow c') = sh_serverVersion (shadow c) ∧
  (sh_localVersion (shadow c) ≤ sh_localVersion (shadow c') ≤
   sh_localVersion (shadow c) + Z.of_nat (length es))%Z ∧
  edits c' = edits c ∧
  bk_serverVersion (backup c') = bk_serverVersion (backup c) ∧
  Forall is_ConsoleLog o ∧ (length h ≤ length h')%nat.
Proof.
  revert h c o. induction es as [|e es IH]; intros h c o; cbn [receiveEdit_forEach].
  - intros; simplify_eq. cbn. split_and!; try done; lia.
  - destruct (receiveEdit_edit d e (h, c)) as [[h1 c1] o1] eqn:He.
    destruct (receiveEdit_forEach d es (h1, c1)) as [[h2 c2] o2] eqn:Hes.
    intros; simplify_eq.
    destruct (receiveEdit_edit_record _ _ _ _ _ _ _ He)
      as (A1 & A2 & A3 & A4 & A5 & A6 & A7).
    destruct (IH _ _ _ Hes) as (B1 & B2 & B3 & B4 & B5 & B6 & B7).
    split_and!; try congruence; try (cbn [length]; lia).
    by apply Forall_app.
Qed.

Lemma sendServerChanges_record d send h c h' c' o :
  sendServerChanges d send (h, c) = (h', c', o) →
  sh_doc (shadow c') = sh_doc (shadow c) ∧
  (sh_serverVersion (shadow c) ≤ sh_serverVersion (shadow c') ≤
   sh_serverVersion (shadow c) + 1)%Z ∧
  sh_localVersion (shadow c') = sh_localVersion (shadow c) ∧
  backup c' = backup c ∧
  o = [SendToClient send
         {| r_localVersion := sh_localVersion (shadow c);
            r_serverVersion := sh_serverVersion (shadow c);
            r_edits := edits c' |}] ∧
  (length h ≤ length h')%nat.
Proof.
  unfold sendServerChanges.
  destruct (isEmpty _); cbn [negb deepCopy alloc]; intros Heq;
    injection Heq as <- <- <-;
    cbn [shadow backup sh_doc sh_serverVersion sh_localVersion edits].
  - split_and!; try done; lia.
  - split_and!; try done; try lia.
    rewrite length_patch, length_app. lia.
Qed.

(** The handler of a truthy verdict without error, for a known client,
    step by step. *)
Lemma checkDiffs_cb_known s connection editMessage doc sendToClient d c
    h2 c2 o1 s2 o2 h3 c3 o4 :
  data s !! doc = Some d →
  clientVersions d !! id connection = Some c →
  receiveEdit_forEach d (m_edits editMessage)
    (heap s, receiveEdit_ack editMessage c) = (h2, c2, o1) →
  saveSnapshot (m_room editMessage) (m_edits editMessage) (userid connection)
    (store_clientDoc doc (id connection) c2 (set_heap h2 s)) = (s2, o2) →
  sendServerChanges d sendToClient (h2, c2) = (h3, c3, o4) →
  checkDiffs_cb connection editMessage doc sendToClient false true s =
  (store_clientDoc doc (id connection) c3 (set_heap h3 s2),
   o1 ++ o2 ++
   (if bool_decide (0 < length (m_edits editMessage))%nat
    then [TransportToEmit (m_room editMessage)
            (cmd_remoteUpdateIncoming COMMANDS) (id connection)]
    else []) ++ o4) ∧
  heap s2 = h2 ∧
  data s2 = <[doc := set_clientDoc (id connection) c2 d]> (data s).
Proof.
  intros Hd Hc Hloop Hsave Hsend.
  pose proof (saveSnapshot_heap_data (m_room editMessage)
                (m_edits editMessage) (userid connection)
                (store_clientDoc doc (id connection) c2 (set_heap h2 s)))
    as [Hh Hdata].
  rewrite Hsave in Hh, Hdata. cbn [fst] in Hh, Hdata.
  split; [|split; [done|]].
  - rewrite (checkDiffs_cb_allowed _ _ _ _ _ _ _ Hd Hc).
    unfold receiveEdit_process. rewrite Hloop.
    unfold receiveEdit_finish. cbn [fst snd]. rewrite Hsave.
    rewrite Hh. cbn [heap set_heap store_clientDoc set_data].
    by rewrite Hsend.
  - rewrite Hdata. by apply store_clientDoc_data.
Qed.


(** X9: what a message that is allowed, from a known client, makes the
    server do, in this order: one log line for each edit it drops; the
    snapshot, which is stored at once with the server copy as the edits
    left it unless a save of the room is in progress; one broadcast of the
    sender's id to the room if the message has any edit, applied or not;
    and exactly one reply, with the server version of before the message
    and the local version of after its edits. *)
Theorem receiveEdit_allowed_effects
    (s : Server) (connection : Connection) (editMessage : EditMessage)
    (sendToClient : Fn) (d : RoomState) (c : ClientDoc) :
  data s !! m_room editMessage = Some d →
  clientVersions d !! id connection = Some c →
  ∃ s' h2 c2 logs o2 reply,
    receiveEdit_forEach d (m_edits editMessage)
      (heap s, receiveEdit_ack editMessage c) = (h2, c2, logs) ∧
    checkDiffs_cb connection editMessage (m_room editMessage) sendToClient
      false true s =
      (s', logs ++ o2 ++
           match m_edits editMessage with
           | [] => []
           | _ => [TransportToEmit (m_room editMessage)
                     (cmd_remoteUpdateIncoming COMMANDS) (id connection)]
           end ++ [SendToClient sendToClient reply]) ∧
    Forall is_ConsoleLog logs ∧
    (if is_true (saveRequests s !! m_room editMessage)
     then o2 = []
     else o2 = [AdapterStoreData (m_room editMessage) (userid connection)
                  (read h2 (serverCopy d)) (m_edits editMessage)]) ∧
    r_serverVersion reply = sh_serverVersion (shadow c) ∧
    r_localVersion reply = sh_localVersion (shadow c2).
Proof.
  intros Hd Hc. set (room := m_room editMessage) in *.
  destruct (receiveEdit_forEach d (m_edits editMessage)
              (heap s, receiveEdit_ack editMessage c))
    as [[h2 c2] o1] eqn:Hloop.
  set (s1 := store_clientDoc room (id connection) c2 (set_heap h2 s)).
  destruct (saveSnapshot room (m_edits editMessage) (userid connection) s1)
    as [s2 o2] eqn:Hsave.
  destruct (sendServerChanges d sendToClient (h2, c2))
    as [[h3 c3] o4] eqn:Hsend.
  destruct (checkDiffs_cb_known _ _ _ _ _ _ _ _ _ _ _ _ _ _ _
              Hd Hc Hloop Hsave Hsend) as (Heq & Hh & Hdata).
  destruct (receiveEdit_forEach_record _ _ _ _ _ _ _ Hloop)
    as (A1 & A2 & A3 & A4 & A5 & A6 & A7).
  destruct (sendServerChanges_record _ _ _ _ _ _ _ Hsend)
    as (B1 & B2 & B3 & B4 & B5 & B6).
  rewrite receiveEdit_ack_shadow in A2.
  eexists _, h2, c2, o1, o2, _. split; [done|]. split_and!.
  - rewrite Heq, B5. f_equal. f_equal. f_equal. f_equal.
    by destruct (m_edits editMessage).
  - done.
  - destruct (is_true (saveRequests s !! room)) eqn:Hbusy.
    + rewrite saveSnapshot_busy in Hsave by done. by simplify_eq.
    + assert (Hd1 : data s1 !! room =
                    Some (set_clientDoc (id connection) c2 d)).
      { subst s1. cbn. by rewrite lookup_alter_eq, Hd. }
      rewrite (saveSnapshot_idle_cached _ _ _ s1 _ Hbusy Hd1) in Hsave.
      by simplify_eq.
  - cbn. congruence.
  - done.
Qed.

(** ** The shadow after a reply *)

Lemma sendServerChanges_sync d send h c h' c' o :
  separated h d c →
  (isEmpty (jdp_diff (read h (sh_doc (shadow c))) (read h (serverCopy d))) =
     true →
   read h (sh_doc (shadow c)) = read h (serverCopy d)) →
  (isEmpty (jdp_diff (read h (sh_doc (shadow c))) (read h (serverCopy d))) =
     false →
   (jdp_patch (read h (sh_doc (shadow c)))
      (jdp_diff (read h (sh_doc (shadow c))) (read h (serverCopy d)))).1 =
   read h (serverCopy d)) →
  sendServerChanges d send (h, c) = (h', c', o) →
  read h' (sh_doc (shadow c')) = read h' (serverCopy d) ∧
  read h' (serverCopy d) = read h (serverCopy d).
Proof.
  intros (Hsh & Hsc & Hne) Hempty Hpatch. unfold sendServerChanges.
  destruct (isEmpty _) eqn:He; cbn [negb deepCopy alloc]; intros Heq;
    injection Heq as <- <- <-; cbn [shadow sh_doc].
  - split; [by apply Hempty|done].
  - split; [|by heap_read]. heap_read. by apply Hpatch.
Qed.

(** X10: if the delta that [sendServerChanges] computes is empty only
    when the shadow equals the server copy, and patching the shadow with
    it gives the server copy, then after [sendServerChanges] the shadow
    object holds the same value as the server copy, which is unchanged. *)
Theorem sendServerChanges_in_sync
    (d : RoomState) (send : Fn) (h : Heap) (c : ClientDoc) :
  separated h d c →
  let a := read h (sh_doc (shadow c)) in
  let b := read h (serverCopy d) in
  (isEmpty (jdp_diff a b) = true → a = b) →
  (isEmpty (jdp_diff a b) = false → (jdp_patch a (jdp_diff a b)).1 = b) →
  ∃ h' c' o,
    sendServerChanges d send (h, c) = (h', c', o) ∧
    read h' (sh_doc (shadow c')) = b ∧ read h' (serverCopy d) = b.
Proof.
  intros Hsep a b Hempty Hpatch.
  destruct (sendServerChanges d send (h, c)) as [[h' c'] o] eqn:Hsend.
  destruct (sendServerChanges_sync _ _ _ _ _ _ _ Hsep Hempty Hpatch Hsend)
    as [H1 H2].
  exists h', c', o. split; [done|]. by rewrite H1, H2.
Qed.


(** ** The versions and the queue in every state *)

Lemma client_ok_ack editMessage c :
  client_ok c → client_ok (receiveEdit_ack editMessage c).
Proof.
  unfold receiveEdit_ack. case_decide; [|done].
  intros (H1 & H2 & H3 & _ & _). split_and!; try done; constructor.
Qed.

Lemma edit_ok_mono c c' e :
  (sh_serverVersion (shadow c) ≤ sh_serverVersion (shadow c'))%Z →
  (sh_localVersion (shadow c) ≤ sh_localVersion (shadow c'))%Z →
  edit_ok c e → edit_ok c' e.
Proof. unfold edit_ok. intros ?? (?&?&?). split_and!; [lia..|done]. Qed.

Lemma client_ok_forEach d es h c h' c' o :
  receiveEdit_forEach d es (h, c) = (h', c', o) →
  client_ok c → client_ok c'.
Proof.
  intros Hloop (H1 & H2 & H3 & H4 & H5).
  destruct (receiveEdit_forEach_record _ _ _ _ _ _ _ Hloop)
    as (A1 & A2 & A3 & A4 & A5 & A6 & A7).
  split_and!; [lia|lia|congruence| |by rewrite A4].
  rewrite A4. eapply Forall_impl; [exact H4|].
  intros e. apply edit_ok_mono; lia.
Qed.

Lemma client_ok_sendServerChanges d send h c h' c' o :
  sendServerChanges d send (h, c) = (h', c', o) →
  client_ok c → client_ok c'.
Proof.
  intros Hsend (H1 & H2 & H3 & H4 & H5). revert Hsend.
  unfold sendServerChanges.
  destruct (isEmpty _) eqn:He; cbn [negb deepCopy alloc]; intros Heq;
    injection Heq as <- <- <-; [done|].
  split_and!; cbn; try done; try lia.
  - apply Forall_app. split.
    + eapply Forall_impl; [exact H4|]. intros e.
      apply edit_ok_mono; cbn; lia.
    + constructor; [|constructor]. unfold edit_ok. cbn.
      split_and!; try done; lia.
  - apply StronglySorted_app_2; [|done|by repeat constructor].
    intros x1 x2 Hx1 ->%list_elem_of_singleton.
    rewrite Forall_forall in H4. destruct (H4 x1 Hx1) as (?&?&?).
    unfold older. cbn. lia.
Qed.

Lemma clients_ok_same s s' :
  data s' = data s → clients_ok s → clients_ok s'.
Proof. unfold clients_ok. by intros ->. Qed.

Lemma clients_ok_update s doc cid c h :
  clients_ok s → client_ok c →
  clients_ok (store_clientDoc doc cid c (set_heap h s)).
Proof.
  intros Hs Hc room d' cid' c'. cbn.
  intros [[<- (d & Hd & ->)] | [Hne Hd]]%lookup_alter_Some.
  - cbn. destruct (decide (cid = cid')) as [<-|Hcid].
    + rewrite lookup_insert_eq. by intros [= <-].
    + rewrite lookup_insert_ne by done. by eapply Hs.
  - by eapply Hs.
Qed.

Lemma clients_ok_call callback room s :
  clients_ok s → clients_ok (call callback room s).1.
Proof.
  intros Hs. destruct (data s !! room) as [d|] eqn:Hd;
    [|by rewrite call_uncached].
  destruct callback as [c r f|c m f|r e u].
  - cbn. unfold joinConnection_cb. rewrite Hd. cbn.
    apply clients_ok_update; [done|].
    split_and!; cbn; try done; constructor.
  - cbn. unfold receiveEdit_cb. by rewrite Hd.
  - eapply clients_ok_same; [apply call_save_heap_data|done].
Qed.

Lemma clients_ok_checkDiffs_cb connection editMessage doc sendToClient
    err res s :
  clients_ok s →
  clients_ok
    (checkDiffs_cb connection editMessage doc sendToClient err res s).1.
Proof.
  intros Hs. unfold checkDiffs_cb at 1.
  destruct res; [|done].
  destruct (data s !! doc) as [d|] eqn:Hd; [|done].
  destruct err; [done|].
  destruct (clientVersions d !! id connection) as [c|] eqn:Hc; [|done].
  destruct (receiveEdit_forEach d (m_edits editMessage)
              (heap s, receiveEdit_ack editMessage c))
    as [[h2 c2] o1] eqn:Hloop.
  destruct (saveSnapshot (m_room editMessage) (m_edits editMessage)
              (userid connection)
              (store_clientDoc doc (id connection) c2 (set_heap h2 s)))
    as [s2 o2] eqn:Hsave.
  destruct (sendServerChanges d sendToClient (h2, c2))
    as [[h3 c3] o4] eqn:Hsend.
  destruct (checkDiffs_cb_known _ _ _ _ _ _ _ _ _ _ _ _ _ _ _
              Hd Hc Hloop Hsave Hsend) as (Heq & Hh & Hdata).
  rewrite (checkDiffs_cb_allowed _ _ _ _ _ _ _ Hd Hc) in Heq.
  rewrite Heq. cbn [fst].
  assert (Hc2 : client_ok c2).
  { eapply client_ok_forEach; [exact Hloop|].
    apply client_ok_ack. by eapply Hs. }
  apply clients_ok_update;
    [|by eapply client_ok_sendServerChanges].
  pose proof (saveSnapshot_heap_data (m_room editMessage)
                (m_edits editMessage) (userid connection)
                (store_clientDoc doc (id connection) c2 (set_heap h2 s)))
    as [_ Hsame].
  rewrite Hsave in Hsame. cbn [fst] in Hsame.
  eapply clients_ok_same; [exact Hsame|]. by apply clients_ok_update.
Qed.

Lemma clients_ok_step ev s : clients_ok s → clients_ok (step ev s).1.
Proof.
  intros Hs. destruct ev as [c r f|c m f|r e u|i error v|i err res|i]; cbn.
  - unfold joinConnection, getData. destruct (data s !! r) eqn:Hd.
    + by apply clients_ok_call.
    + by destruct (is_true (requests s !! r)).
  - unfold receiveEdit, getData. destruct (data s !! m_room m) eqn:Hd.
    + by apply clients_ok_call.
    + by destruct (is_true (requests s !! m_room m)).
  - eapply clients_ok_same; [apply saveSnapshot_heap_data|done].
  - destruct (getDataCalls s !! i) as [c|] eqn:Hi; [|done].
    unfold getData_adapter_cb. cbn [alloc]. apply clients_ok_call.
    intros room d cid c'. cbn.
    destruct (decide (gd_room c = room)) as [<-|Hne].
    + rewrite lookup_insert_eq. intros [= <-]. cbn. by rewrite lookup_empty.
    + rewrite lookup_insert_ne by done. by apply Hs.
  - destruct (checkDiffsCalls s !! i) as [c|] eqn:Hi; [|done].
    by apply clients_ok_checkDiffs_cb.
  - destruct (storeDataCalls s !! i) as [c|] eqn:Hi; [|done].
    unfold checkQueueAndSaveAgain. destruct (is_true _); [|done].
    eapply clients_ok_same; [apply saveSnapshot_heap_data|done].
Qed.

Lemma clients_ok_run evs s : clients_ok s → clients_ok (run evs s).1.
Proof.
  revert s. induction evs as [|ev evs IH]; intros s Hs; cbn; [done|].
  pose proof (clients_ok_step ev s Hs) as Hs1.
  destruct (step ev s) as [s1 o1]. specialize (IH s1 Hs1).
  by destruct (run evs s1).
Qed.

(** X12: in every state the server can reach, for every client: the two
    versions of the shadow are not negative and the version of the backup
    is 0, as set by the join; the queue of pending edits is in strictly
    increasing order of server version, every entry was made below the
    shadow's present server version and at most at its local version,
    and no entry has an empty delta. *)
Theorem reachable_clients_ok
    (s : Server) (room : string) (d : RoomState) (cid : string)
    (c : ClientDoc) :
  reachable s →
  data s !! room = Some d →
  clientVersions d !! cid = Some c →
  (0 ≤ sh_serverVersion (shadow c))%Z ∧
  (0 ≤ sh_localVersion (shadow c))%Z ∧
  bk_serverVersion (backup c) = 0%Z ∧
  StronglySorted older (edits c) ∧
  ∀ e, e ∈ edits c →
    (0 ≤ e_serverVersion e < sh_serverVersion (shadow c))%Z ∧
    (0 ≤ e_localVersion e ≤ sh_localVersion (shadow c))%Z ∧
    isEmpty (e_diff e) = false.
Proof.
  intros [evs <-] Hd Hc.
  assert (Hok : clients_ok (run evs newServer).1).
  { apply clients_ok_run. intros r d' k c'. cbn. by rewrite lookup_empty. }
  destruct (Hok _ _ _ _ Hd Hc) as (H1 & H2 & H3 & H4 & H5).
  split_and!; try done. intros e He.
  rewrite Forall_forall in H4. by apply H4.
Qed.

(** ** Documents are never shared *)

Lemma no_alias_same s s' :
  heap s' = heap s → data s' = data s → no_alias s → no_alias s'.
Proof.
  intros Hh Hd [Hv Hu]. unfold no_alias, owns in *. rewrite Hh, Hd.
  by split.
Qed.

(** Who holds what after a client's record was written. *)
Lemma owns_update s doc cid c h d o l :
  data s !! doc = Some d →
  owns (store_clientDoc doc cid c (set_heap h s)) o l ↔
  match o with
  | OwnServerCopy r => owns s o l
  | OwnShadow r k =>
      if decide (r = doc ∧ k = cid) then sh_doc (shadow c) = l
      else owns s o l
  | OwnBackup r k =>
      if decide (r = doc ∧ k = cid) then bk_doc (backup c) = l
      else owns s o l
  end.
Proof.
  intros Hd.
  assert (Hl : ∀ r, data (store_clientDoc doc cid c (set_heap h s)) !! r =
                    if decide (doc = r) then Some (set_clientDoc cid c d)
                    else data s !! r).
  { intros r. cbn. case_decide as Hr.
    - subst r. by rewrite lookup_alter_eq, Hd.
    - by rewrite lookup_alter_ne. }
  destruct o as [r|r k|r k]; unfold owns; rewrite Hl.
  - case_decide; [subst r|done]. split.
    + intros (d' & [= <-] & Hc). eauto.
    + intros (d' & Hd' & Hc). simplify_eq. eauto.
  - destruct (decide (doc = r)) as [<-|Hr].
    + destruct (decide (k = cid)) as [->|Hk].
      * rewrite decide_True by done. split.
        -- intros (d' & c' & [= <-] & Hc & Hc'). cbn in Hc.
           rewrite lookup_insert_eq in Hc. by simplify_eq.
        -- intros Hc. exists (set_clientDoc cid c d), c. cbn.
           by rewrite lookup_insert_eq.
      * rewrite decide_False by (by intros [_ ?]). split.
        -- intros (d' & c' & [= <-] & Hc & Hc'). cbn in Hc.
           rewrite lookup_insert_ne in Hc by done. eauto.
        -- intros (d' & c' & Hd' & Hc & Hc'). simplify_eq.
           exists (set_clientDoc cid c d), c'. cbn.
           by rewrite lookup_insert_ne.
    + rewrite decide_False; [done|by intros [? _]].
  - destruct (decide (doc = r)) as [<-|Hr].
    + destruct (decide (k = cid)) as [->|Hk].
      * rewrite decide_True by done. split.
        -- intros (d' & c' & [= <-] & Hc & Hc'). cbn in Hc.
           rewrite lookup_insert_eq in Hc. by simplify_eq.
        -- intros Hc. exists (set_clientDoc cid c d), c. cbn.
           by rewrite lookup_insert_eq.
      * rewrite decide_False by (by intros [_ ?]). split.
        -- intros (d' & c' & [= <-] & Hc & Hc'). cbn in Hc.
           rewrite lookup_insert_ne in Hc by done. eauto.
        -- intros (d' & c' & Hd' & Hc & Hc'). simplify_eq.
           exists (set_clientDoc cid c d), c'. cbn.
           by rewrite lookup_insert_ne.
    + rewrite decide_False; [done|by intros [? _]].
Qed.

(** A reference of the new record is a new object or the one the record
    held in the same place. *)
Lemma no_alias_update s doc cid c h d :
  no_alias s → (length (heap s) ≤ length h)%nat →
  data s !! doc = Some d →
  allocated h (sh_doc (shadow c)) → allocated h (bk_doc (backup c)) →
  sh_doc (shadow c) ≠ bk_doc (backup c) →
  (¬ allocated (heap s) (sh_doc (shadow c)) ∨
   owns s (OwnShadow doc cid) (sh_doc (shadow c))) →
  (¬ allocated (heap s) (bk_doc (backup c)) ∨
   owns s (OwnBackup doc cid) (bk_doc (backup c))) →
  no_alias (store_clientDoc doc cid c (set_heap h s)).
Proof.
  intros [Hv Hu] Hle Hd Hsh Hbk Hne Hfsh Hfbk.
  assert (Hold : ∀ o l, owns s o l → allocated h l).
  { intros o l Ho. specialize (Hv o l Ho). unfold allocated in *. lia. }
  assert (Hcases : ∀ o l,
            owns (store_clientDoc doc cid c (set_heap h s)) o l →
            (o = OwnShadow doc cid ∧ l = sh_doc (shadow c)) ∨
            (o = OwnBackup doc cid ∧ l = bk_doc (backup c)) ∨
            (owns s o l ∧ o ≠ OwnShadow doc cid ∧ o ≠ OwnBackup doc cid)).
  { intros o l. rewrite (owns_update _ _ _ _ _ d) by done.
    destruct o as [r|r k|r k].
    - intros Ho. by right; right.
    - case_decide as Hk.
      + destruct Hk as [-> ->]. intros <-. by left.
      + intros Ho. right; right. split_and!; [done| |done].
        intros [= -> ->]. by destruct Hk.
    - case_decide as Hk.
      + destruct Hk as [-> ->]. intros <-. by right; left.
      + intros Ho. right; right. split_and!; [done|done|].
        intros [= -> ->]. by destruct Hk. }
  assert (Hsh' : ∀ o, owns s o (sh_doc (shadow c)) →
                      o = OwnShadow doc cid).
  { intros o Ho. destruct Hfsh as [Hf|Hf]; [|by eapply Hu].
    destruct Hf. by eapply Hv. }
  assert (Hbk' : ∀ o, owns s o (bk_doc (backup c)) →
                      o = OwnBackup doc cid).
  { intros o Ho. destruct Hfbk as [Hf|Hf]; [|by eapply Hu].
    destruct Hf. by eapply Hv. }
  split.
  - intros o l [[-> ->]|[[-> ->]|[Ho _]]]%Hcases; [done|done|].
    by eapply Hold.
  - intros o1 o2 l H1%Hcases H2%Hcases.
    destruct H1 as [[-> ->]|[[-> ->]|(H1 & N1 & N1')]];
      destruct H2 as [[-> E2]|[[-> E2]|(H2 & N2 & N2')]];
      subst; try done;
      try (by apply Hsh' in H2); try (by apply Hbk' in H2);
      try (by apply Hsh' in H1); try (by apply Hbk' in H1).
    by eapply Hu.
Qed.

Lemma receiveEdit_edit_backup d e h c h' c' o :
  receiveEdit_edit d e (h, c) = (h', c', o) →
  allocated h (bk_doc (backup c)) →
  allocated h' (bk_doc (backup c')) ∧
  (bk_doc (backup c') = bk_doc (backup c) ∨
   ¬ allocated h (bk_doc (backup c'))).
Proof.
  unfold receiveEdit_edit.
  destruct (_ && _)%bool; cbn [deepCopy alloc]; intros Heq;
    injection Heq as <- <- <-; cbn [backup bk_doc]; intros Hbk.
  - split; [heap_side|]. right. unfold allocated. lia.
  - split; [done|by left].
Qed.

Lemma receiveEdit_forEach_backup d es h c h' c' o :
  receiveEdit_forEach d es (h, c) = (h', c', o) →
  allocated h (bk_doc (backup c)) →
  allocated h' (bk_doc (backup c')) ∧
  (bk_doc (backup c') = bk_doc (backup c) ∨
   ¬ allocated h (bk_doc (backup c'))).
Proof.
  revert h c o. induction es as [|e es IH]; intros h c o;
    cbn [receiveEdit_forEach].
  - intros; simplify_eq. cbn. split; [done|by left].
  - destruct (receiveEdit_edit d e (h, c)) as [[h1 c1] o1] eqn:He.
    destruct (receiveEdit_forEach d es (h1, c1)) as [[h2 c2] o2] eqn:Hes.
    intros Heq Hbk; simplify_eq.
    destruct (receiveEdit_edit_backup _ _ _ _ _ _ _ He Hbk) as [A1 A2].
    destruct (IH _ _ _ Hes A1) as [B1 B2].
    destruct (receiveEdit_edit_record _ _ _ _ _ _ _ He)
      as (_ & _ & _ & _ & _ & _ & Hle).
    split; [done|]. destruct B2 as [->|B2]; [done|]. right.
    unfold allocated in *. lia.
Qed.

Lemma receiveEdit_forEach_frame d es h c h' c' o :
  separated h d c →
  receiveEdit_forEach d es (h, c) = (h', c', o) →
  ∀ l, allocated h l → l ≠ sh_doc (shadow c) → l ≠ serverCopy d →
       read h' l = read h l.
Proof.
  revert h c o. induction es as [|e es IH]; intros h c o Hsep;
    cbn [receiveEdit_forEach].
  - intros; by simplify_eq.
  - destruct (receiveEdit_edit d e (h, c)) as [[h1 c1] o1] eqn:He.
    destruct (receiveEdit_forEach d es (h1, c1)) as [[h2 c2] o2] eqn:Hes.
    intros Heq l Hl Hsh Hsc; simplify_eq.
    pose proof (receiveEdit_edit_separated _ _ _ _ _ _ _ Hsep He) as Hsep1.
    destruct (receiveEdit_edit_record _ _ _ _ _ _ _ He)
      as (Href & _ & _ & _ & _ & _ & Hle).
    rewrite (IH _ _ _ Hsep1 Hes); [| unfold allocated in *; lia
                                   | by rewrite Href | done].
    destruct (decide (versions_match e c)) as [Hm|Hm].
    + destruct (receiveEdit_edit_applied d e h c Hsep Hm)
        as (hx & cx & Heq & Hap).
      rewrite Heq in He. simplify_eq. by apply (ap_frame _ _ _ _ _ _ Hap).
    + rewrite receiveEdit_edit_rejected in He by done. by simplify_eq.
Qed.

Lemma sendServerChanges_frame d send h c h' c' o :
  sendServerChanges d send (h, c) = (h', c', o) →
  ∀ l, allocated h l → l ≠ sh_doc (shadow c) → read h' l = read h l.
Proof.
  unfold sendServerChanges.
  destruct (isEmpty _); cbn [negb deepCopy alloc]; intros Heq;
    injection Heq as <- <- <-; [done|].
  intros l Hl Hne. cbn [shadow sh_doc]. by heap_read.
Qed.

Lemma no_alias_call callback room s :
  no_alias s → no_alias (call callback room s).1.
Proof.
  intros Hs. destruct (data s !! room) as [d|] eqn:Hd;
    [|by rewrite call_uncached].
  destruct callback as [c r f|c m f|r e u].
  - cbn. unfold joinConnection_cb. rewrite Hd. cbn.
    eapply no_alias_update; [done| |done|..]; cbn;
      rewrite ?length_app; cbn; unfold allocated;
      rewrite ?length_app; cbn; lia.
  - cbn. unfold receiveEdit_cb. by rewrite Hd.
  - eapply no_alias_same; [apply call_save_heap_data..|done].
Qed.

Lemma no_alias_checkDiffs_cb connection editMessage doc sendToClient
    err res s :
  no_alias s →
  no_alias (checkDiffs_cb connection editMessage doc sendToClient err res s).1.
Proof.
  intros Hs. unfold checkDiffs_cb at 1.
  destruct res; [|done].
  destruct (data s !! doc) as [d|] eqn:Hd; [|done].
  destruct err; [done|].
  destruct (clientVersions d !! id connection) as [c|] eqn:Hc; [|done].
  destruct (receiveEdit_forEach d (m_edits editMessage)
              (heap s, receiveEdit_ack editMessage c))
    as [[h2 c2] o1] eqn:Hloop.
  destruct (saveSnapshot (m_room editMessage) (m_edits editMessage)
              (userid connection)
              (store_clientDoc doc (id connection) c2 (set_heap h2 s)))
    as [s2 o2] eqn:Hsave.
  destruct (sendServerChanges d sendToClient (h2, c2))
    as [[h3 c3] o4] eqn:Hsend.
  destruct (checkDiffs_cb_known _ _ _ _ _ _ _ _ _ _ _ _ _ _ _
              Hd Hc Hloop Hsave Hsend) as (Heq & Hh & Hdata).
  rewrite (checkDiffs_cb_allowed _ _ _ _ _ _ _ Hd Hc) in Heq.
  rewrite Heq. cbn [fst].
  destruct (receiveEdit_forEach_record _ _ _ _ _ _ _ Hloop)
    as (A1 & _ & _ & _ & _ & _ & A7).
  destruct (sendServerChanges_record _ _ _ _ _ _ _ Hsend)
    as (B1 & _ & _ & B4 & _ & B6).
  rewrite receiveEdit_ack_shadow in A1.
  pose proof Hs as [Hv Hu].
  assert (Hosh : owns s (OwnShadow doc (id connection)) (sh_doc (shadow c)))
    by (cbn; eauto).
  assert (Hobk : owns s (OwnBackup doc (id connection)) (bk_doc (backup c)))
    by (cbn; eauto).
  destruct (receiveEdit_forEach_backup _ _ _ _ _ _ _ Hloop) as [C1 C2].
  { rewrite receiveEdit_ack_backup. by eapply Hv. }
  rewrite receiveEdit_ack_backup in C2.
  assert (Hne2 : sh_doc (shadow c2) ≠ bk_doc (backup c2)).
  { rewrite A1. destruct C2 as [->|C2].
    - intros Heq'. rewrite Heq' in Hosh.
      by pose proof (Hu _ _ _ Hosh Hobk).
    - intros Heq'. rewrite <- Heq' in C2. destruct C2. by eapply Hv. }
  assert (Hs1 : no_alias
                  (store_clientDoc doc (id connection) c2 (set_heap h2 s))).
  { eapply no_alias_update; [done|done|done|..|done| |].
    - rewrite A1. specialize (Hv _ _ Hosh). unfold allocated in *. lia.
    - done.
    - right. by rewrite A1.
    - destruct C2 as [->|C2]; [by right|by left]. }
  pose proof (saveSnapshot_heap_data (m_room editMessage)
                (m_edits editMessage) (userid connection)
                (store_clientDoc doc (id connection) c2 (set_heap h2 s)))
    as [Hh2 Hd2].
  rewrite Hsave in Hh2, Hd2. cbn [fst] in Hh2, Hd2.
  assert (Hs2 : no_alias s2) by by eapply no_alias_same.
  assert (Hd2' : data s2 !! doc = Some (set_clientDoc (id connection) c2 d)).
  { by rewrite Hdata, lookup_insert_eq. }
  assert (Hown2 : ∀ o l,
            owns (store_clientDoc doc (id connection) c2 (set_heap h2 s)) o l →
            owns s2 o l).
  { intros o l. unfold owns. by rewrite Hd2. }
  eapply no_alias_update; [done| |exact Hd2'|..].
  - rewrite Hh2. cbn. done.
  - rewrite B1, A1. specialize (Hv _ _ Hosh). unfold allocated in *. lia.
  - rewrite B4. unfold allocated in *. lia.
  - by rewrite B1, B4.
  - right. apply Hown2. rewrite (owns_update _ _ _ _ _ d) by done.
    rewrite decide_True by done. by rewrite B1.
  - right. apply Hown2. rewrite (owns_update _ _ _ _ _ d) by done.
    rewrite decide_True by done. by rewrite B4.
Qed.

Lemma no_alias_step ev s : no_alias s → no_alias (step ev s).1.
Proof.
  intros Hs. destruct ev as [c r f|c m f|r e u|i error v|i err res|i]; cbn.
  - unfold joinConnection, getData. destruct (data s !! r) eqn:Hd.
    + by apply no_alias_call.
    + by destruct (is_true (requests s !! r)).
  - unfold receiveEdit, getData. destruct (data s !! m_room m) eqn:Hd.
    + by apply no_alias_call.
    + by destruct (is_true (requests s !! m_room m)).
  - eapply no_alias_same; [apply saveSnapshot_heap_data..|done].
  - destruct (getDataCalls s !! i) as [c|] eqn:Hi; [|done].
    unfold getData_adapter_cb. cbn [alloc]. apply no_alias_call.
    destruct Hs as [Hv Hu].
    assert (Hold : ∀ o l,
              owns (set_requests (<[gd_room c:=false]>
                      (requests (set_getDataCalls
                         (delete i (getDataCalls s)) s)))
                      (set_data
                         (<[gd_room c:={| registeredSockets := [];
                                          clientVersions := ∅;
                                          serverCopy := length (heap s) |}]>
                            (data s))
                         (set_heap (heap s ++ [v])
                            (set_getDataCalls
                               (delete i (getDataCalls s)) s)))) o l →
              (o = OwnServerCopy (gd_room c) ∧ l = length (heap s)) ∨
              owns s o l).
    { intros o l. destruct o as [r|r k|r k]; cbn.
      - destruct (decide (gd_room c = r)) as [<-|Hne].
        + rewrite lookup_insert_eq. intros (d & [= <-] & <-). by left.
        + rewrite lookup_insert_ne by done. by right.
      - destruct (decide (gd_room c = r)) as [<-|Hne].
        + rewrite lookup_insert_eq. intros (d & c' & [= <-] & Hc & _).
          cbn in Hc. by rewrite lookup_empty in Hc.
        + rewrite lookup_insert_ne by done. by right.
      - destruct (decide (gd_room c = r)) as [<-|Hne].
        + rewrite lookup_insert_eq. intros (d & c' & [= <-] & Hc & _).
          cbn in Hc. by rewrite lookup_empty in Hc.
        + rewrite lookup_insert_ne by done. by right. }
    split.
    + intros o l [[-> ->]|Ho]%Hold.
      * unfold allocated. cbn. rewrite length_app. cbn. lia.
      * specialize (Hv _ _ Ho). unfold allocated in *. cbn.
        rewrite length_app. lia.
    + intros o1 o2 l [[-> ->]|H1]%Hold [[-> Hl]|H2]%Hold; try done.
      * specialize (Hv _ _ H2). unfold allocated in Hv. lia.
      * subst l. specialize (Hv _ _ H1). unfold allocated in Hv. lia.
      * by eapply Hu.
  - destruct (checkDiffsCalls s !! i) as [c|] eqn:Hi; [|done].
    by apply no_alias_checkDiffs_cb.
  - destruct (storeDataCalls s !! i) as [c|] eqn:Hi; [|done].
    unfold checkQueueAndSaveAgain. destruct (is_true _); [|done].
    eapply no_alias_same; [apply saveSnapshot_heap_data..|done].
Qed.

Lemma no_alias_reachable s : reachable s → no_alias s.
Proof.
  intros [evs <-].
  assert (Hgen : ∀ evs s, no_alias s → no_alias (run evs s).1).
  { clear. intros evs. induction evs as [|ev evs IH]; intros s Hs; cbn;
      [done|].
    pose proof (no_alias_step ev s Hs) as Hs1.
    destruct (step ev s) as [s1 o1]. specialize (IH s1 Hs1).
    by destruct (run evs s1). }
  apply Hgen. split.
  - intros [r|r k|r k] l; cbn; rewrite lookup_empty; intros H;
      by decompose [ex and] H.
  - intros [r|r k|r k] o2 l; cbn; rewrite lookup_empty; intros H;
      by decompose [ex and] H.
Qed.

(** X13: in every state the server can reach, the server copies of the
    rooms and the shadows and backups of the clients are all different
    objects, and every one of them is a valid reference: no document is
    shared between two places. *)
Theorem documents_never_shared (s : Server) :
  reachable s →
  (∀ o l, owns s o l → allocated (heap s) l) ∧
  (∀ o1 o2 l, owns s o1 l → owns s o2 l → o1 = o2).
Proof. intros Hr. by apply no_alias_reachable. Qed.

(** ** A message of one client leaves the others alone *)

(** X14: the verdict on a message of a client changes, of the documents
    the server holds, only the server copy of the message's room and the
    shadow and backup of that client: every other place (the server
    copies of the other rooms, the shadows and backups of the other
    clients of any room) holds the object it held, with the content it
    had. *)
Theorem receiveEdit_isolation (s : Server) (connection : Connection)
    (editMessage : EditMessage) (doc : string) (sendToClient : Fn)
    (err res : bool) (o : Owner) (l : loc) :
  reachable s →
  owns s o l →
  o ≠ OwnServerCopy doc →
  o ≠ OwnShadow doc (id connection) →
  o ≠ OwnBackup doc (id connection) →
  let s' :=
    (checkDiffs_cb connection editMessage doc sendToClient err res s).1 in
  owns s' o l ∧ read (heap s') l = read (heap s) l.
Proof.
  intros Hr Ho N1 N2 N3. cbn zeta.
  pose proof (no_alias_reachable s Hr) as [Hv Hu].
  assert (Hwf : wf_heap s).
  { destruct Hr as [evs <-]. apply wf_heap_run. intros r d'. cbn.
    by rewrite lookup_empty. }
  unfold checkDiffs_cb at 1 2.
  destruct res; [|done].
  destruct (data s !! doc) as [d|] eqn:Hd; [|done].
  destruct err; [done|].
  destruct (clientVersions d !! id connection) as [c|] eqn:Hc; [|done].
  destruct (receiveEdit_forEach d (m_edits editMessage)
              (heap s, receiveEdit_ack editMessage c))
    as [[h2 c2] o1] eqn:Hloop.
  destruct (saveSnapshot (m_room editMessage) (m_edits editMessage)
              (userid connection)
              (store_clientDoc doc (id connection) c2 (set_heap h2 s)))
    as [s2 o2] eqn:Hsave.
  destruct (sendServerChanges d sendToClient (h2, c2))
    as [[h3 c3] o4] eqn:Hsend.
  destruct (checkDiffs_cb_known _ _ _ _ _ _ _ _ _ _ _ _ _ _ _
              Hd Hc Hloop Hsave Hsend) as (Heq & Hh & Hdata).
  rewrite (checkDiffs_cb_allowed _ _ _ _ _ _ _ Hd Hc) in Heq.
  rewrite Heq. cbn [fst].
  destruct (receiveEdit_forEach_record _ _ _ _ _ _ _ Hloop)
    as (A1 & _ & _ & _ & _ & _ & A7).
  rewrite receiveEdit_ack_shadow in A1.
  destruct (Hwf doc d Hd) as [Hsc Hcl].
  destruct (Hcl _ _ Hc) as (W1 & W2 & W3 & W4 & W5 & W6).
  assert (Hlsh : l ≠ sh_doc (shadow c)).
  { intros ->. destruct N2. eapply Hu; [done|]. cbn. eauto. }
  assert (Hlsc : l ≠ serverCopy d).
  { intros ->. destruct N1. eapply Hu; [done|]. cbn. eauto. }
  pose proof (Hv _ _ Ho) as Hl.
  split.
  - pose proof (saveSnapshot_heap_data (m_room editMessage)
                  (m_edits editMessage) (userid connection)
                  (store_clientDoc doc (id connection) c2 (set_heap h2 s)))
      as [_ Hd2].
    rewrite Hsave in Hd2. cbn [fst] in Hd2.
    rewrite (owns_update _ _ _ _ _ (set_clientDoc (id connection) c2 d))
      by by rewrite Hdata, lookup_insert_eq.
    assert (Ho2 : owns s2 o l).
    { assert (Ho1 : owns (store_clientDoc doc (id connection) c2
                            (set_heap h2 s)) o l).
      { rewrite (owns_update _ _ _ _ _ d) by done.
        destruct o as [r|r k|r k]; [done| |].
        - rewrite decide_False; [done|]. intros [-> ->]. by destruct N2.
        - rewrite decide_False; [done|]. intros [-> ->]. by destruct N3. }
      revert Ho1. unfold owns. by rewrite Hd2. }
    destruct o as [r|r k|r k]; [done| |].
    + rewrite decide_False; [done|]. intros [-> ->]. by destruct N2.
    + rewrite decide_False; [done|]. intros [-> ->]. by destruct N3.
  - cbn [heap store_clientDoc set_heap set_data].
    rewrite (sendServerChanges_frame _ _ _ _ _ _ _ Hsend);
      [| unfold allocated in *; lia | by rewrite A1].
    eapply receiveEdit_forEach_frame; [|exact Hloop|done|..].
    + split_and!; by rewrite ?receiveEdit_ack_shadow.
    + by rewrite receiveEdit_ack_shadow.
    + done.
Qed.

(** ** A save asked for while the room loads *)

Lemma stuck_same room s s' :
  saveRequests s' !! room = saveRequests s !! room →
  storeDataCalls s' = storeDataCalls s →
  getDataCalls s' = getDataCalls s →
  stuck room s → stuck room s'.
Proof.
  unfold stuck, stores, saves_loading. by intros -> -> ->.
Qed.

Lemma no_store_app room o1 o2 :
  no_store room o1 → no_store room o2 → no_store room (o1 ++ o2).
Proof. apply Forall_app_2. Qed.

Lemma stays_stuck_call room callback data_ s :
  save_room callback ≠ Some room → stuck room s →
  stays_stuck room (call callback data_ s).
Proof.
  intros Hcb Hs. destruct (data s !! data_) as [d|] eqn:Hd;
    [|rewrite call_uncached by done; by split; [|constructor]].
  destruct callback as [c r f|c m f|r e u]; cbn;
    unfold joinConnection_cb, receiveEdit_cb, saveSnapshot_cb;
    rewrite Hd; cbn.
  - split; [by eapply stuck_same; [..|exact Hs]|].
    repeat constructor; by intros [].
  - split; [by eapply stuck_same; [..|exact Hs]|].
    repeat constructor; by intros [].
  - assert (r ≠ room) by (intros ->; by destruct Hcb).
    split.
    + destruct Hs as (F & S & L). split_and!; [done| |done].
      unfold stores in *. cbn. rewrite count_app, count_singleton, S.
      cbn. by rewrite decide_False.
    + repeat constructor. cbn. done.
Qed.

Lemma stays_stuck_getData room r userid_ callback s :
  save_room callback ≠ Some room → stuck room s →
  stays_stuck room (getData r userid_ callback s).
Proof.
  intros Hcb Hs. unfold getData.
  destruct (data s !! r) as [d|] eqn:Hd; [by apply stays_stuck_call|].
  destruct (is_true (requests s !! r)); cbn [negb].
  - split; [by eapply stuck_same; [..|exact Hs]|constructor].
  - split; [|repeat constructor; by intros []].
    destruct Hs as (F & S & L). split_and!; [done|done|].
    unfold saves_loading in *. cbn.
    rewrite count_app, count_singleton, L. cbn. by rewrite decide_False.
Qed.

Lemma stays_stuck_saveSnapshot room r edits_ userid_ s :
  stuck room s → stays_stuck room (saveSnapshot r edits_ userid_ s).
Proof.
  intros Hs. unfold saveSnapshot.
  destruct (is_true (saveRequests s !! r)) eqn:Hr; cbn [negb].
  - split; [by eapply stuck_same; [..|exact Hs]|constructor].
  - assert (r ≠ room).
    { intros ->. destruct Hs as (F & _). congruence. }
    apply stays_stuck_getData; [cbn; congruence|].
    eapply stuck_same; [..|exact Hs]; try done.
    cbn. by rewrite lookup_insert_ne.
Qed.

Lemma stays_stuck_checkQueueAndSaveAgain room r edits_ userid_ s :
  r ≠ room → stuck room s →
  stays_stuck room (checkQueueAndSaveAgain r edits_ userid_ s).
Proof.
  intros Hne Hs. unfold checkQueueAndSaveAgain.
  assert (H1 : stuck room
                 (set_saveRequests (<[r:=false]> (saveRequests s)) s)).
  { eapply stuck_same; [..|exact Hs]; try done.
    cbn. by rewrite lookup_insert_ne. }
  destruct (is_true (saveQueue s !! r)).
  - apply stays_stuck_saveSnapshot.
    by eapply stuck_same; [..|exact H1].
  - split; [done|constructor].
Qed.

Lemma stays_stuck_checkDiffs_cb room connection editMessage doc sendToClient
    err res s :
  stuck room s →
  stays_stuck room
    (checkDiffs_cb connection editMessage doc sendToClient err res s).
Proof.
  intros Hs. unfold checkDiffs_cb at 1.
  destruct res; [|by split; [|constructor]].
  destruct (data s !! doc) as [d|] eqn:Hd; [|by split; [|constructor]].
  assert (Hemit : ∀ p, stays_stuck room
            (s, [ConnectionEmit (id connection) (cmd_error COMMANDS) p])).
  { intros p. split; [done|]. repeat constructor. by intros []. }
  destruct err; [done|].
  destruct (clientVersions d !! id connection) as [c|] eqn:Hc; [|done].
  destruct (receiveEdit_forEach d (m_edits editMessage)
              (heap s, receiveEdit_ack editMessage c))
    as [[h2 c2] o1] eqn:Hloop.
  destruct (saveSnapshot (m_room editMessage) (m_edits editMessage)
              (userid connection)
              (store_clientDoc doc (id connection) c2 (set_heap h2 s)))
    as [s2 o2] eqn:Hsave.
  destruct (sendServerChanges d sendToClient (h2, c2))
    as [[h3 c3] o4] eqn:Hsend.
  destruct (checkDiffs_cb_known _ _ _ _ _ _ _ _ _ _ _ _ _ _ _
              Hd Hc Hloop Hsave Hsend) as (Heq & Hh & Hdata).
  rewrite (checkDiffs_cb_allowed _ _ _ _ _ _ _ Hd Hc) in Heq.
  rewrite Heq.
  destruct (receiveEdit_forEach_record _ _ _ _ _ _ _ Hloop)
    as (_ & _ & _ & _ & _ & A6 & _).
  destruct (sendServerChanges_record _ _ _ _ _ _ _ Hsend)
    as (_ & _ & _ & _ & B5 & _).
  assert (H2 : stays_stuck room (s2, o2)).
  { rewrite <- Hsave. apply stays_stuck_saveSnapshot.
    by eapply stuck_same; [..|exact Hs]. }
  destruct H2 as [H2 H2']. cbn [fst snd] in H2, H2'.
  split; cbn [fst snd].
  - by eapply stuck_same; [..|exact H2].
  - repeat apply no_store_app.
    + eapply Forall_impl; [exact A6|].
      intros e He; destruct e; cbn in *; tauto.
    + done.
    + case_bool_decide; repeat constructor. by intros [].
    + rewrite B5. repeat constructor. by intros [].
Qed.

Lemma stays_stuck_step room ev s :
  stuck room s → stays_stuck room (step ev s).
Proof.
  intros Hs. destruct ev as [c r f|c m f|r e u|i error v|i err res|i]; cbn.
  - by apply stays_stuck_getData.
  - by apply stays_stuck_getData.
  - by apply stays_stuck_saveSnapshot.
  - destruct (getDataCalls s !! i) as [c|] eqn:Hi;
      [|by split; [|constructor]].
    unfold getData_adapter_cb. cbn [alloc].
    pose proof Hs as (F & S & L).
    assert (Hcb : save_room (gd_callback c) ≠ Some room).
    { intros Hcb. unfold saves_loading in L.
      pose proof (count_pos (λ c, save_room (gd_callback c) = Some room)
                    (getDataCalls s) c) as Hpos.
      specialize (Hpos (list_elem_of_lookup_2 _ _ _ Hi) Hcb). lia. }
    apply stays_stuck_call; [done|].
    split_and!; [done|done|].
    unfold saves_loading in *. cbn.
    rewrite (count_delete _ _ _ _ Hi) in L. lia.
  - destruct (checkDiffsCalls s !! i) as [c|] eqn:Hi;
      [|by split; [|constructor]].
    apply stays_stuck_checkDiffs_cb.
    by eapply stuck_same; [..|exact Hs].
  - destruct (storeDataCalls s !! i) as [c|] eqn:Hi;
      [|by split; [|constructor]].
    pose proof Hs as (F & S & L).
    assert (Hne : sd_room c ≠ room).
    { intros Hcb. unfold stores in S.
      pose proof (count_pos (λ c, sd_room c = room)
                    (storeDataCalls s) c) as Hpos.
      specialize (Hpos (list_elem_of_lookup_2 _ _ _ Hi) Hcb). lia. }
    apply stays_stuck_checkQueueAndSaveAgain; [done|].
    split_and!; [done| |done].
    unfold stores in *. cbn.
    rewrite (count_delete _ _ _ _ Hi) in S. lia.
Qed.

Lemma stays_stuck_run room evs s :
  stuck room s → stays_stuck room (run evs s).
Proof.
  revert s. induction evs as [|ev evs IH]; intros s Hs; cbn.
  - by split; [|constructor].
  - destruct (stays_stuck_step room ev s Hs) as [H1 H1'].
    destruct (step ev s) as [s1 o1]. cbn [fst snd] in H1, H1'.
    destruct (IH s1 H1) as [H2 H2'].
    destruct (run evs s1) as [s2 o2]. cbn [fst snd] in *.
    split; [done|by apply no_store_app].
Qed.

(** [pending] of lines 88-93 is [true] exactly when some flag is. *)
Lemma pending_saves_spec flags :
  pending_saves flags = true ↔ ∃ room, flags !! room = Some true.
Proof.
  unfold pending_saves.
  apply (map_fold_weak_ind
           (λ r m, r = true ↔ ∃ room, m !! room = Some true)).
  - split; [done|]. intros [r Hr]. by rewrite lookup_empty in Hr.
  - intros k flag m r Hk IH. destruct flag.
    + split; [|done]. intros _. exists k. by rewrite lookup_insert_eq.
    + rewrite IH. split; intros [k' Hk'].
      * exists k'. rewrite lookup_insert_ne; [done|]. intros ->.
        by rewrite Hk in Hk'.
      * destruct (decide (k = k')) as [->|Hne].
        -- by rewrite lookup_insert_eq in Hk'.
        -- rewrite lookup_insert_ne in Hk' by done. eauto.
Qed.

Lemma stuck_pending room s :
  stuck room s → pending_saves (saveRequests s) = true.
Proof.
  intros (F & _). apply pending_saves_spec. exists room.
  by destruct (saveRequests s !! room) as [[]|].
Qed.

Lemma stuck_reset room between s :
  stuck room s →
  stuck room (reset between s).1.1 ∧ no_store room (reset between s).1.2 ∧
  (reset between s).2 = false.
Proof.
  revert s. induction between as [|evs rest IH]; intros s Hs;
    cbn [reset]; unfold waitForDiffSyncServer;
    rewrite (stuck_pending room s Hs).
  - by split_and!; [|constructor|].
  - destruct (stays_stuck_run room evs s Hs) as [H1 H1'].
    destruct (run evs s) as [s1 o1]. cbn [fst snd] in H1, H1'.
    destruct (IH s1 H1) as (H2 & H2' & H2'').
    destruct (reset rest s1) as [[s2 o2] done]. cbn [fst snd] in *.
    split_and!; [done|by apply no_store_app|done].
Qed.

(** X15: a call of [saveSnapshot] for a room that is being loaded, with no
    save of the room in progress, marks a save as in progress and calls
    nothing: its callback is dropped by [getData].  From then on, whatever
    happens, [storeData] is never called for the room again and the room's
    [saveRequests] flag stays [true]. *)
Theorem saveSnapshot_lost_while_loading (s : Server) (room : string)
    (edits_ : list Edit) (userid_ : string) (evs : list Event) :
  reachable s →
  data s !! room = None →
  is_true (requests s !! room) = true →
  is_true (saveRequests s !! room) = false →
  let s1 := (saveSnapshot room edits_ userid_ s).1 in
  (saveSnapshot room edits_ userid_ s).2 = [] ∧
  saveRequests s1 !! room = Some true ∧
  no_store room (run evs s1).2 ∧
  saveRequests (run evs s1).1 !! room = Some true.
Proof.
  intros [evs0 <-] Hd Hreq Hsave. cbn zeta.
  set (s := (run evs0 newServer).1) in *.
  assert (Hs : consistent s)
    by (apply consistent_run, consistent_newServer).
  pose proof (co_saves s Hs room) as Hle. rewrite Hsave in Hle.
  cbn in Hle.
  assert (Heq : saveSnapshot room edits_ userid_ s =
                (set_requests (<[room:=true]> (requests s))
                   (set_saveRequests (<[room:=true]> (saveRequests s)) s),
                 [])).
  { unfold saveSnapshot. rewrite Hsave. cbn [negb]. unfold getData.
    cbn [data set_saveRequests requests]. by rewrite Hd, Hreq. }
  rewrite Heq. cbn [fst snd].
  assert (Hst : stuck room
            (set_requests (<[room:=true]> (requests s))
               (set_saveRequests (<[room:=true]> (saveRequests s)) s))).
  { split_and!.
    - cbn. by rewrite lookup_insert_eq.
    - unfold stores in *. cbn. lia.
    - unfold saves_loading in *. cbn. lia. }
  destruct (stays_stuck_run room evs _ Hst) as [(F & _) H2].
  split_and!; [done|cbn; by rewrite lookup_insert_eq|done|].
  revert F. by destruct (saveRequests (run evs _).1 !! room) as [[]|].
Qed.

(** X16: once a save was asked for while its room was loading, [reset]
    never calls its callback: however long it polls and whatever happens
    between two polls, it finds the room's save in progress. *)
Theorem reset_never_completes (s : Server) (room : string)
    (edits_ : list Edit) (userid_ : string) (between : list (list Event)) :
  reachable s →
  data s !! room = None →
  is_true (requests s !! room) = true →
  is_true (saveRequests s !! room) = false →
  (reset between (saveSnapshot room edits_ userid_ s).1).2 = false.
Proof.
  intros [evs0 <-] Hd Hreq Hsave.
  set (s := (run evs0 newServer).1) in *.
  assert (Hs : consistent s)
    by (apply consistent_run, consistent_newServer).
  pose proof (co_saves s Hs room) as Hle. rewrite Hsave in Hle.
  cbn in Hle.
  apply (stuck_reset room). unfold saveSnapshot. rewrite Hsave.
  cbn [negb]. unfold getData. cbn [data set_saveRequests requests].
  rewrite Hd, Hreq. cbn [negb fst]. split_and!.
  - cbn. by rewrite lookup_insert_eq.
  - unfold stores in *. cbn. lia.
  - unfold saves_loading in *. cbn. lia.
Qed.

(** ** [reset] *)

(** X17: one run of [waitForDiffSyncServer] calls the callback exactly
    when no room's [saveRequests] flag is [true]; it then leaves the four
    dictionaries empty and, in a state the server can reach, no
    [storeData] call is outstanding and no save waits for a load.
    Otherwise the state is as it was. *)
Theorem reset_waits_for_saves (s : Server) :
  reachable s →
  ((∃ room, saveRequests s !! room = Some true) →
   waitForDiffSyncServer s = (s, ResetWait)) ∧
  ((∀ room, saveRequests s !! room ≠ Some true) →
   (waitForDiffSyncServer s).2 = ResetDone ∧
   storeDataCalls s = [] ∧
   (∀ room, saves_loading room s = 0%nat) ∧
   let s' := (waitForDiffSyncServer s).1 in
   data s' = ∅ ∧ requests s' = ∅ ∧ saveRequests s' = ∅ ∧
   saveQueue s' = ∅ ∧ heap s' = heap s ∧
   getDataCalls s' = getDataCalls s ∧
   checkDiffsCalls s' = checkDiffsCalls s ∧
   storeDataCalls s' = storeDataCalls s).
Proof.
  intros [evs0 <-]. set (s := (run evs0 newServer).1).
  assert (Hs : consistent s)
    by (apply consistent_run, consistent_newServer).
  unfold waitForDiffSyncServer. split.
  - intros Hp%pending_saves_spec. by rewrite Hp.
  - intros Hno.
    assert (Hp : pending_saves (saveRequests s) = false).
    { destruct (pending_saves (saveRequests s)) eqn:Hp; [|done].
      apply pending_saves_spec in Hp as [room Hp]. by destruct (Hno room). }
    rewrite Hp. cbn.
    assert (Hz : ∀ room, stores room s = 0%nat ∧
                         saves_loading room s = 0%nat).
    { intros room. pose proof (co_saves s Hs room) as Hle.
      specialize (Hno room).
      destruct (saveRequests s !! room) as [[]|]; cbn in Hle;
        [done|lia|lia]. }
    split_and!; try done.
    + destruct (storeDataCalls s) as [|c l] eqn:Hc; [done|].
      destruct (Hz (sd_room c)) as [Hz' _]. unfold stores in Hz'.
      pose proof (count_pos (λ c', sd_room c' = sd_room c)
                    (storeDataCalls s) c) as Hpos.
      rewrite Hc in Hpos at 1. specialize (Hpos ltac:(left) eq_refl). lia.
    + intros room. apply Hz.
Qed.


End Server.

(** * Evaluation *)

#[local] Abbreviation Run :=
  (run replace_diff replace_patch lodash_isEmpty commands).
#[local] Abbreviation Step1 :=
  (step replace_diff replace_patch lodash_isEmpty commands).

(** Scenario S1 *)
Example scenario_join :
  Run [EvJoin alice "r" 1%nat; EvGetDataDone 0 false hello] newServer =
  (joined,
   [AdapterGetData "r" "alice"; ConnectionJoin "A" "r";
    InitializeClient 1 hello]) ∧
  data joined !! "r" = Some room0 ∧
  heap joined = [hello; hello; hello].
Proof. by vm_compute. Qed.

(** Scenario S2 *)
Example scenario_edit :
  Step1 (EvSyncWithServer alice message1 2%nat) joined =
  (checking, [AdapterCheckDiffs message1 room0]) ∧
  Step1 (EvCheckDiffsDone 0 false true) checking =
  (saving,
   [AdapterStoreData "r" "alice" hello_world [edit1];
    TransportToEmit "r" "updated-doc" "A";
    SendToClient 2
      {| r_localVersion := 1; r_serverVersion := 0; r_edits := [] |}]).
Proof. by vm_compute. Qed.

(** Scenario S5: five calls while the adapter holds the first one open,
    then the two completions: two [storeData] calls in all. *)
Example scenario_save_coalescing :
  (Run (arrivals "r" [([], "u1"); ([edit1], "u2"); ([], "u3");
                      ([], "u4"); ([], "u5")] ++
        [EvStoreDataDone 0; EvStoreDataDone 0]) joined).2 =
  [AdapterStoreData "r" "u1" hello []; AdapterStoreData "r" "u1" hello []].
Proof. by vm_compute. Qed.

(** C5, as the code has it: two joins for a room that is not loaded, then
    the load completes.  The adapter is asked once, but only the first
    join is called back: the second connection is never joined to the
    room, its [initializeClient] is never called and the room has no
    record for it.  Nothing is outstanding afterwards. *)
Theorem concurrent_join_dropped :
  let r := Run [EvJoin alice "r" 1%nat; EvJoin bob "r" 2%nat;
                EvGetDataDone 0 false hello] newServer in
  r.2 = [AdapterGetData "r" "alice"; ConnectionJoin "A" "r";
         InitializeClient 1 hello] ∧
  getDataCalls r.1 = [] ∧
  data r.1 !! "r" = Some room0.
Proof. by vm_compute. Qed.

(** C6, as the code has it: the load of a room fails.  The flag is
    cleared, but a RoomState built from the failed load is put in the
    cache and handed to the caller, whose message goes on to the adapter;
    a later join does not retry the load and is served from that state. *)
Theorem failed_load_published :
  let partial :=
    {| registeredSockets := []; clientVersions := ∅; serverCopy := 0 |} in
  let r := Run [EvSyncWithServer alice message1 2%nat;
                EvGetDataDone 0 true VUndefined] newServer in
  r.2 = [AdapterGetData "r" "alice"; AdapterCheckDiffs message1 partial] ∧
  requests r.1 !! "r" = Some false ∧
  data r.1 !! "r" = Some partial ∧
  heap r.1 = [VUndefined] ∧
  (Step1 (EvJoin bob "r" 3%nat) r.1).2 =
    [ConnectionJoin "B" "r"; InitializeClient 3 VUndefined].
Proof. by vm_compute. Qed.

(** * The theorems at work *)

#[local] Abbreviation forEach1 :=
  (receiveEdit_forEach replace_patch lodash_isEmpty).
#[local] Abbreviation checkDiffs_cb1 :=
  (checkDiffs_cb replace_diff replace_patch lodash_isEmpty commands).
#[local] Abbreviation finish1 :=
  (receiveEdit_finish replace_diff replace_patch lodash_isEmpty commands).
#[local] Abbreviation reachable1 :=
  (reachable replace_diff replace_patch lodash_isEmpty commands).


(** The second copy of the edit is reached after the first was applied. *)
Lemma stale_edit_rejected :
  ∃ h c h1 c1 o1,
    forEach1 room0 [edit1] (heap joined, receiveEdit_ack message2 client0) =
      (h, c, []) ∧
    sh_localVersion (shadow c) = 1%Z ∧
    receiveEdit_edit replace_patch lodash_isEmpty room0 edit1 (h, c) =
      (h1, c1, o1) ∧
    h1 = h ∧ c1 = c ∧ o1 = [ConsoleLog 0 0 0 1].
Proof. repeat eexists; by vm_compute. Qed.

(** The server copy has moved on to [hello_world]; the shadow still holds
    [hello]. *)
Lemma sendServerChanges_reply_witness :
  allocated [hello_world; hello; hello] (sh_doc (shadow client0)) ∧
  let h := [hello_world; hello; hello] in
  let d := replace_diff (read h (sh_doc (shadow client0)))
             (read h (serverCopy room0)) in
  let basedOn := sh_serverVersion (shadow client0) in
  ∃ h' clientDoc',
    sendServerChanges replace_diff replace_patch lodash_isEmpty room0 2%nat
      (h, client0) =
      (h', clientDoc',
       [SendToClient 2
          {| r_localVersion := sh_localVersion (shadow clientDoc');
             r_serverVersion := basedOn;
             r_edits := edits clientDoc' |}]) ∧
    (lodash_isEmpty d = false →
       edits clientDoc' =
         edits client0 ++
         [{| e_serverVersion := basedOn;
             e_localVersion := sh_localVersion (shadow client0);
             e_diff := d |}] ∧
       sh_serverVersion (shadow clientDoc') = (basedOn + 1)%Z ∧
       sh_localVersion (shadow clientDoc') =
         sh_localVersion (shadow client0) ∧
       sh_doc (shadow clientDoc') = sh_doc (shadow client0) ∧
       backup clientDoc' = backup client0 ∧
       read h' (sh_doc (shadow client0)) =
         (replace_patch (read h (sh_doc (shadow client0))) d).1 ∧
       ∀ l, allocated h l → l ≠ sh_doc (shadow client0) →
            read h' l = read h l) ∧
    (lodash_isEmpty d = true → h' = h ∧ clientDoc' = client0).
Proof.
  assert (H1 : allocated [hello_world; hello; hello]
                 (sh_doc (shadow client0))) by (vm_compute; lia).
  split; [exact H1|].
  exact (sendServerChanges_reply replace_diff replace_patch lodash_isEmpty
           room0 2%nat [hello_world; hello; hello] client0 H1).
Defined.



(** Alice's message is with the adapter; the verdict is falsy. *)
Lemma receiveEdit_disallowed_witness :
  checkDiffsCalls checking !! 0%nat =
    Some {| cd_connection := alice; cd_editMessage := message1;
            cd_doc := "r"; cd_sendToClient := 2%nat |} ∧
  checkDiffs_cb1 alice message1 "r" 2%nat false false checking =
    (checking, []) ∧
  Step1 (EvCheckDiffsDone 0 false false) checking =
    (set_checkDiffsCalls (delete 0%nat (checkDiffsCalls checking)) checking,
     []) ∧
  (let '(s1, o) := receiveEdit alice message1 2%nat checking in
   heap s1 = heap checking ∧ data s1 = data checking ∧
   saveRequests s1 = saveRequests checking ∧
   saveQueue s1 = saveQueue checking ∧
   storeDataCalls s1 = storeDataCalls checking ∧
   (o = [] ∨
    o = [AdapterGetData (m_room message1) (userid alice)] ∨
    ∃ d, o = [AdapterCheckDiffs message1 d])).
Proof.
  assert (H1 : checkDiffsCalls checking !! 0%nat =
               Some {| cd_connection := alice; cd_editMessage := message1;
                       cd_doc := "r"; cd_sendToClient := 2%nat |})
    by (vm_compute; reflexivity).
  destruct (receiveEdit_disallowed replace_diff replace_patch lodash_isEmpty
              commands checking alice message1 2%nat "r" false)
    as (Ha & Hb & Hc).
  split; [exact H1|]. split; [exact Ha|]. split; [exact (Hb _ _ H1)|].
  exact Hc.
Defined.


(** Bob has not joined the room alice is in. *)
Lemma receiveEdit_unknown_client_witness :
  data joined !! "r" = Some room0 ∧
  clientVersions room0 !! id bob = None ∧
  checkDiffs_cb1 bob message1 "r" 2%nat false true joined =
  (joined, [ConnectionEmit "B" "error" "Need to re-connect!"]).
Proof.
  assert (H1 : data joined !! "r" = Some room0) by (vm_compute; reflexivity).
  assert (H2 : clientVersions room0 !! id bob = None)
    by (vm_compute; reflexivity).
  split; [exact H1|]. split; [exact H2|].
  exact (receiveEdit_unknown_client replace_diff replace_patch
           lodash_isEmpty commands joined bob message1 2%nat "r" room0
           false H1 H2).
Defined.

(** A save of room "r" is started with no edits for user "u0"; alice's
    edit then changes the server copy and asks for a save of its own, and
    one more call arrives with other arguments.  The [storeData] that
    follows the completion carries no edits, user "u0" and the new
    document. *)
Lemma saveSnapshot_followup_arguments_witness :
  cached "r" joined ∧
  is_true (saveRequests joined !! "r") = false ∧
  Forall not_store_done
    [EvSyncWithServer alice message1 2%nat; EvCheckDiffsDone 0 false true] ∧
  Forall not_store_done [EvJoin bob "r" 3%nat] ∧
  let n := length (storeDataCalls joined) in
  let s2 :=
    (Run (EvSaveSnapshot "r" [] "u0" ::
          [EvSyncWithServer alice message1 2%nat;
           EvCheckDiffsDone 0 false true] ++
          EvSaveSnapshot "r" [edit1] "u1" :: [EvJoin bob "r" 3%nat])
       joined).1 in
  ∃ d0 d2,
    data joined !! "r" = Some d0 ∧ data s2 !! "r" = Some d2 ∧
    (Step1 (EvSaveSnapshot "r" [] "u0") joined).2 =
      [AdapterStoreData "r" "u0" (read (heap joined) (serverCopy d0)) []] ∧
    (Step1 (EvStoreDataDone n) s2).2 =
      [AdapterStoreData "r" "u0" (read (heap s2) (serverCopy d2)) []].
Proof.
  assert (H1 : cached "r" joined) by (exists room0; vm_compute; reflexivity).
  assert (H2 : is_true (saveRequests joined !! "r") = false)
    by (vm_compute; reflexivity).
  assert (H3 : Forall not_store_done
                 [EvSyncWithServer alice message1 2%nat;
                  EvCheckDiffsDone 0 false true])
    by (repeat constructor).
  assert (H4 : Forall not_store_done [EvJoin bob "r" 3%nat])
    by (repeat constructor).
  split; [exact H1|]. split; [exact H2|]. split; [exact H3|].
  split; [exact H4|].
  exact (saveSnapshot_followup_arguments replace_diff replace_patch
           lodash_isEmpty commands joined "r" [] "u0" _ [edit1] "u1" _
           H1 H2 H3 H4).
Defined.

(** In that run the document of the second [storeData] is the edited
    one. *)
Example saveSnapshot_followup_document :
  (Run (EvSaveSnapshot "r" [] "u0" ::
        [EvSyncWithServer alice message1 2%nat;
         EvCheckDiffsDone 0 false true] ++
        EvSaveSnapshot "r" [edit1] "u1" ::
        [EvJoin bob "r" 3%nat; EvStoreDataDone 0]) joined).2 =
  [AdapterStoreData "r" "u0" hello [];
   AdapterCheckDiffs message1 room0;
   TransportToEmit "r" "updated-doc" "A";
   SendToClient 2
     {| r_localVersion := 1; r_serverVersion := 0; r_edits := [] |};
   ConnectionJoin "B" "r"; InitializeClient 3 hello_world;
   AdapterStoreData "r" "u0" hello_world []].
Proof. by vm_compute. Qed.

(** The caller dropped by a pending load can be [saveSnapshot] itself:
    called while the room is loading, it marks the save as in progress
    and is never called back, so no later call for the room stores
    anything. *)
Example save_during_load_dropped :
  let r := Run [EvJoin alice "r" 1%nat; EvSaveSnapshot "r" [] "u";
                EvGetDataDone 0 false hello;
                EvSaveSnapshot "r" [] "u"] newServer in
  r.2 = [AdapterGetData "r" "alice"; ConnectionJoin "A" "r";
         InitializeClient 1 hello] ∧
  saveRequests r.1 !! "r" = Some true ∧
  storeDataCalls r.1 = [] ∧ getDataCalls r.1 = [].
Proof. by vm_compute. Qed.


(** * The further properties at work *)



Lemma reachable_saving : reachable1 saving.
Proof.
  exists [EvJoin alice "r" 1%nat; EvGetDataDone 0 false hello;
          EvSyncWithServer alice message1 2%nat;
          EvCheckDiffsDone 0 false true].
  vm_compute. reflexivity.
Qed.


Lemma reachable_loading : reachable1 loading.
Proof. exists [EvJoin alice "r" 1%nat]. vm_compute. reflexivity. Qed.

Lemma reachable_two_clients : reachable1 two_clients.
Proof.
  exists [EvJoin alice "r" 1%nat; EvGetDataDone 0 false hello;
          EvJoin bob "r" 3%nat].
  vm_compute. reflexivity.
Qed.

(** Bob joins the room that alice had loaded. *)
Lemma joinConnection_cached_witness :
  data joined !! "r" = Some room0 ∧
  allocated (heap joined) (serverCopy room0) ∧
  ∃ s', joinConnection bob "r" 3%nat joined =
          (s', [ConnectionJoin "B" "r"; InitializeClient 3%nat hello]) ∧
        requests s' = requests joined.
Proof.
  assert (H1 : data joined !! "r" = Some room0) by (vm_compute; reflexivity).
  assert (H2 : allocated (heap joined) (serverCopy room0))
    by (vm_compute; lia).
  split; [exact H1|]. split; [exact H2|].
  destruct (joinConnection_cached joined bob "r" 3%nat room0 H1 H2)
    as (s' & c & Heq & _ & _ & _ & _ & _ & _ & _ & _ & _ & _ & _ & Hreq & _).
  exists s'. split; [exact Heq|exact Hreq].
Defined.




(** The edit of version 0 twice, for a shadow that is at version 1. *)
Lemma receiveEdit_stale_edits_ignored_witness :
  Forall (λ e, ¬ versions_match e client1) [edit1; edit1] ∧
  ∃ logs, forEach1 room1 [edit1; edit1] (heap saving, client1) =
            (heap saving, client1, logs) ∧
          length logs = 2%nat.
Proof.
  assert (H1 : Forall (λ e, ¬ versions_match e client1) [edit1; edit1]).
  { repeat constructor; intros [_ H]; vm_compute in H; discriminate H. }
  split; [exact H1|].
  destruct (receiveEdit_stale_edits_ignored replace_patch lodash_isEmpty
              room1 [edit1; edit1] (heap saving) client1 H1)
    as (logs & Heq & Hlen & _).
  exists logs. split; [exact Heq|exact Hlen].
Defined.


(** Alice's edit delivered twice. *)
Lemma receiveEdit_redelivery_ignored_witness :
  separated (heap joined) room0 client0 ∧
  in_sequence lodash_isEmpty 0 0 [edit1] ∧
  ∃ h' c' logs,
    forEach1 room0 [edit1] (heap joined, client0) = (h', c', []) ∧
    forEach1 room0 [edit1] (h', c') = (h', c', logs) ∧
    length logs = 1%nat.
Proof.
  assert (H1 : separated (heap joined) room0 client0)
    by (vm_compute; repeat split; lia).
  assert (H2 : in_sequence lodash_isEmpty 0 0 [edit1])
    by (vm_compute; repeat split).
  split; [exact H1|]. split; [exact H2|].
  destruct (receiveEdit_redelivery_ignored replace_patch lodash_isEmpty
              room0 [edit1] (heap joined) client0 H1 H2)
    as (h' & c' & logs & Heq & Heq' & Hlen & _).
  exists h', c', logs. split; [exact Heq|]. split; [exact Heq'|exact Hlen].
Defined.


Lemma receiveEdit_allowed_effects_witness :
  data joined !! m_room message1 = Some room0 ∧
  clientVersions room0 !! id alice = Some client0 ∧
  ∃ s' logs o2 reply,
    checkDiffs_cb1 alice message1 "r" 2%nat false true joined =
      (s', logs ++ o2 ++
           [TransportToEmit "r" "updated-doc" "A"] ++
           [SendToClient 2%nat reply]) ∧
    r_serverVersion reply = 0%Z.
Proof.
  assert (H1 : data joined !! m_room message1 = Some room0)
    by (vm_compute; reflexivity).
  assert (H2 : clientVersions room0 !! id alice = Some client0)
    by (vm_compute; reflexivity).
  split; [exact H1|]. split; [exact H2|].
  destruct (receiveEdit_allowed_effects replace_diff replace_patch
              lodash_isEmpty commands joined alice message1 2%nat
              room0 client0 H1 H2)
    as (s' & h2 & c2 & logs & o2 & reply & _ & Heq & _ & _ & Hsv & _).
  exists s', logs, o2, reply. split; [exact Heq|exact Hsv].
Defined.

(** The server copy is ahead of alice's shadow. *)
Lemma sendServerChanges_in_sync_witness :
  separated behind room0 client0 ∧
  (lodash_isEmpty (replace_diff hello hello_world) = true →
   hello = hello_world) ∧
  (lodash_isEmpty (replace_diff hello hello_world) = false →
   (replace_patch hello (replace_diff hello hello_world)).1 = hello_world) ∧
  ∃ h' c' o,
    sendServerChanges replace_diff replace_patch lodash_isEmpty room0
      2%nat (behind, client0) = (h', c', o) ∧
    read h' (sh_doc (shadow c')) = hello_world ∧
    read h' (serverCopy room0) = hello_world.
Proof.
  assert (H1 : separated behind room0 client0)
    by (vm_compute; repeat split; lia).
  assert (H2 : lodash_isEmpty (replace_diff hello hello_world) = true →
               hello = hello_world)
    by (vm_compute; intros H; discriminate H).
  assert (H3 : lodash_isEmpty (replace_diff hello hello_world) = false →
               (replace_patch hello (replace_diff hello hello_world)).1 =
               hello_world)
    by (vm_compute; reflexivity).
  split; [exact H1|]. split; [exact H2|]. split; [exact H3|].
  exact (sendServerChanges_in_sync replace_diff replace_patch
           lodash_isEmpty room0 2%nat behind client0 H1 H2 H3).
Defined.


(** Alice's record in scenario S2. *)
Lemma reachable_clients_ok_witness :
  reachable1 saving ∧
  data saving !! "r" = Some room1 ∧
  clientVersions room1 !! "A" = Some client1 ∧
  (0 ≤ sh_serverVersion (shadow client1))%Z ∧
  bk_serverVersion (backup client1) = 0%Z.
Proof.
  assert (H2 : data saving !! "r" = Some room1) by (vm_compute; reflexivity).
  assert (H3 : clientVersions room1 !! "A" = Some client1)
    by (vm_compute; reflexivity).
  split; [exact reachable_saving|]. split; [exact H2|]. split; [exact H3|].
  destruct (reachable_clients_ok replace_diff replace_patch lodash_isEmpty
              commands saving "r" room1 "A" client1 reachable_saving H2 H3)
    as (Hsv & _ & Hbk & _).
  split; [exact Hsv|exact Hbk].
Defined.

Lemma documents_never_shared_witness :
  reachable1 two_clients ∧
  ∀ o1 o2 l, owns two_clients o1 l → owns two_clients o2 l → o1 = o2.
Proof.
  split; [exact reachable_two_clients|].
  exact (proj2 (documents_never_shared replace_diff replace_patch
                  lodash_isEmpty commands two_clients
                  reachable_two_clients)).
Defined.

(** Alice's message is allowed while bob is in the room: bob's shadow is
    where it was and as it was. *)
Lemma receiveEdit_isolation_witness :
  reachable1 two_clients ∧
  owns two_clients (OwnShadow "r" "B") 4%nat ∧
  OwnShadow "r" "B" ≠ OwnServerCopy "r" ∧
  OwnShadow "r" "B" ≠ OwnShadow "r" (id alice) ∧
  OwnShadow "r" "B" ≠ OwnBackup "r" (id alice) ∧
  let s' := (checkDiffs_cb1 alice message1 "r" 2%nat false true
               two_clients).1 in
  owns s' (OwnShadow "r" "B") 4%nat ∧
  read (heap s') 4%nat = read (heap two_clients) 4%nat.
Proof.
  assert (H2 : owns two_clients (OwnShadow "r" "B") 4%nat).
  { exists room2, client_bob. vm_compute. repeat split. }
  assert (H3 : OwnShadow "r" "B" ≠ OwnServerCopy "r")
    by (intros H; discriminate H).
  assert (H4 : OwnShadow "r" "B" ≠ OwnShadow "r" (id alice))
    by (intros H; discriminate H).
  assert (H5 : OwnShadow "r" "B" ≠ OwnBackup "r" (id alice))
    by (intros H; discriminate H).
  split; [exact reachable_two_clients|]. split; [exact H2|].
  split; [exact H3|]. split; [exact H4|]. split; [exact H5|].
  exact (receiveEdit_isolation replace_diff replace_patch lodash_isEmpty
           commands two_clients alice message1 "r" 2%nat false true
           (OwnShadow "r" "B") 4%nat reachable_two_clients H2 H3 H4 H5).
Defined.

(** A snapshot is asked for while the room loads; then the load
    completes and another snapshot is asked for. *)
Lemma saveSnapshot_lost_while_loading_witness :
  reachable1 loading ∧
  data loading !! "r" = None ∧
  is_true (requests loading !! "r") = true ∧
  is_true (saveRequests loading !! "r") = false ∧
  let s1 := (saveSnapshot "r" [edit1] "alice" loading).1 in
  (saveSnapshot "r" [edit1] "alice" loading).2 = [] ∧
  saveRequests s1 !! "r" = Some true ∧
  no_store "r"
    (Run [EvGetDataDone 0 false hello; EvSaveSnapshot "r" [] "bob"] s1).2 ∧
  saveRequests
    (Run [EvGetDataDone 0 false hello; EvSaveSnapshot "r" [] "bob"] s1).1
    !! "r" = Some true.
Proof.
  assert (H2 : data loading !! "r" = None) by (vm_compute; reflexivity).
  assert (H3 : is_true (requests loading !! "r") = true)
    by (vm_compute; reflexivity).
  assert (H4 : is_true (saveRequests loading !! "r") = false)
    by (vm_compute; reflexivity).
  split; [exact reachable_loading|]. split; [exact H2|].
  split; [exact H3|]. split; [exact H4|].
  exact (saveSnapshot_lost_while_loading replace_diff replace_patch
           lodash_isEmpty commands loading "r" [edit1] "alice"
           [EvGetDataDone 0 false hello; EvSaveSnapshot "r" [] "bob"]
           reachable_loading H2 H3 H4).
Defined.

(** [reset] after that snapshot: three polls, the load completing after
    the first. *)
Lemma reset_never_completes_witness :
  reachable1 loading ∧
  data loading !! "r" = None ∧
  is_true (requests loading !! "r") = true ∧
  is_true (saveRequests loading !! "r") = false ∧
  (reset replace_diff replace_patch lodash_isEmpty commands
     [[EvGetDataDone 0 false hello]; []]
     (saveSnapshot "r" [edit1] "alice" loading).1).2 = false.
Proof.
  assert (H2 : data loading !! "r" = None) by (vm_compute; reflexivity).
  assert (H3 : is_true (requests loading !! "r") = true)
    by (vm_compute; reflexivity).
  assert (H4 : is_true (saveRequests loading !! "r") = false)
    by (vm_compute; reflexivity).
  split; [exact reachable_loading|]. split; [exact H2|].
  split; [exact H3|]. split; [exact H4|].
  exact (reset_never_completes replace_diff replace_patch lodash_isEmpty
           commands loading "r" [edit1] "alice"
           [[EvGetDataDone 0 false hello]; []]
           reachable_loading H2 H3 H4).
Defined.

(** [reset] in scenario S2, where a save is outstanding. *)
Lemma reset_waits_for_saves_witness :
  reachable1 saving ∧
  saveRequests saving !! "r" = Some true ∧
  waitForDiffSyncServer saving = (saving, ResetWait).
Proof.
  assert (H2 : saveRequests saving !! "r" = Some true)
    by (vm_compute; reflexivity).
  split; [exact reachable_saving|]. split; [exact H2|].
  exact (proj1 (reset_waits_for_saves replace_diff replace_patch
                  lodash_isEmpty commands saving reachable_saving)
           (ex_intro _ "r" H2)).
Defined.

